(** * CallMonitor: the call-start simulator and the permission-matrix builder

    A shallow embedding of [tools/simulate_start_call.py] and of
    [tools/build_permission_matrix.py], and the properties of the two
    programs stated over it.

    Python values are embedded as the JSON-like type [value]; the module
    level tables of the simulator are the fields of [World]; the body of
    [simulate_start_call] runs in a state-and-exception monad [M], in which
    a Python exception is an outcome of its own, kept apart from a returned
    result. *)

From stdpp Require Import gmap strings list fin_maps sorting pretty.
From Stdlib Require Import ZArith.

Set Warnings "-register-all".

(** ** Python values *)

(** The values the two programs handle: [None], booleans, integers,
    strings, lists, and dictionaries with string keys (what [json.loads]
    yields, floats apart).  A dictionary is an association list in which
    the first binding of a key is the one in force. *)
Inductive value : Type :=
| VNone
| VBool (b : bool)
| VInt (z : Z)
| VStr (s : string)
| VList (l : list value)
| VDict (d : list (string * value)).

Abbreviation dict := (list (string * value)).

(** [bool(v)]: what [if v] and [not v] test. *)
Definition truthy (v : value) : bool :=
  match v with
  | VNone => false
  | VBool b => b
  | VInt z => negb (z =? 0)%Z
  | VStr s => negb (String.eqb s EmptyString)
  | VList l => match l with [] => false | _ :: _ => true end
  | VDict d => match d with [] => false | _ :: _ => true end
  end.

(** Lists and dictionaries have no hash. *)
Definition hashable (v : value) : bool :=
  match v with
  | VList _ | VDict _ => false
  | _ => true
  end.

Fixpoint dict_lookup (d : dict) (k : string) : option value :=
  match d with
  | [] => None
  | (k', v) :: d' => if String.eqb k' k then Some v else dict_lookup d' k
  end.

(** [s == v] for a string [s] and any value [v]. *)
Definition str_eq_value (s : string) (v : value) : bool :=
  match v with
  | VStr s' => String.eqb s s'
  | _ => false
  end.

(** ** Exceptions and the monad *)

Inductive exn : Type :=
| KeyError (key : string)
| TypeError (msg : string)
| AttributeError (msg : string).

Inductive outcome (A : Type) : Type :=
| Returned (a : A)
| Raised (e : exn).
Arguments Returned {A} a.
Arguments Raised {A} e.

(** ** Rows of the mock tables *)

Record Organization := mkOrganization {
  org_id : string;
  org_name : string;
  org_plan : string;
  org_tool_id : string;
  org_created_by : string
}.

Record OrgMember := mkOrgMember {
  member_id : string;
  member_organization_id : string;
  member_user_id : string;
  member_role : string
}.

Record System := mkSystem {
  system_id : string;
  system_key : string
}.

Record Call := mkCall {
  call_id : string;
  call_organization_id : string;
  call_system_id : string;
  call_status : string;
  call_started_at : option string;
  call_ended_at : option string;
  call_created_by : value;
  call_call_sid : option string
}.

Record AiRun := mkAiRun {
  ai_id : string;
  ai_call_id : string;
  ai_system_id : string;
  ai_model : string;
  ai_status : string;
  ai_started_at : option string;
  ai_completed_at : option string;
  ai_output : option value
}.

(** The [after] snapshot of an audit entry: the intent record carries the
    organization's tool id and a timestamp, the create record the call row
    with the modulations under [config]. *)
Inductive snapshot : Type :=
| IntentSnapshot (tool_id : string) (requested_at : string)
| CallSnapshot (row : Call) (config : value).

Record AuditLog := mkAuditLog {
  audit_id : string;
  audit_organization_id : string;
  audit_user_id : value;
  audit_system_id : string;
  audit_resource_type : string;
  audit_resource_id : string;
  audit_action : string;
  audit_before : option snapshot;
  audit_after : snapshot;
  audit_created_at : string
}.

(** What the function prints, one constructor per [print] call. *)
Inductive printed : Type :=
| PInvoked
| PInput (input : dict)
| PDbCall (row : Call)
| PProvider (call_sid : string)
| PDbAiRun (row : AiRun)
| PAudit (entry : AuditLog).

(** The module's globals, the standard output, and how many UUIDs and
    clock readings have been drawn so far. *)
Record World := mkWorld {
  organizations : gmap string Organization;
  org_members : list OrgMember;
  systems : list System;
  calls : list Call;
  ai_runs : list AiRun;
  audit_logs : list AuditLog;
  stdout : list printed;
  uuid_draws : nat;
  clock_reads : nat
}.

(** The two sources of fresh data: the hex digits of the n-th UUID drawn,
    and the ISO text of the n-th clock reading. *)
Record Env := mkEnv {
  uuid4_hex : nat → string;
  utcnow_isoformat : nat → string
}.

Record result := mkResult {
  success : bool;
  result_call_id : option string;
  errors : list (string * string)
}.

Definition M (A : Type) : Type := World → outcome A * World.

Global Instance M_ret : MRet M := λ A a w, (Returned a, w).
Global Instance M_bind : MBind M := λ A B f m w,
  match m w with
  | (Returned a, w') => f a w'
  | (Raised e, w') => (Raised e, w')
  end.

Definition raise {A} (e : exn) : M A := λ w, (Raised e, w).

Definition set_calls (f : list Call → list Call) (w : World) : World :=
  mkWorld (organizations w) (org_members w) (systems w) (f (calls w))
          (ai_runs w) (audit_logs w) (stdout w) (uuid_draws w) (clock_reads w).

Definition set_ai_runs (f : list AiRun → list AiRun) (w : World) : World :=
  mkWorld (organizations w) (org_members w) (systems w) (calls w)
          (f (ai_runs w)) (audit_logs w) (stdout w) (uuid_draws w) (clock_reads w).

Definition set_audit_logs (f : list AuditLog → list AuditLog) (w : World) : World :=
  mkWorld (organizations w) (org_members w) (systems w) (calls w)
          (ai_runs w) (f (audit_logs w)) (stdout w) (uuid_draws w) (clock_reads w).

Definition set_stdout (f : list printed → list printed) (w : World) : World :=
  mkWorld (organizations w) (org_members w) (systems w) (calls w)
          (ai_runs w) (audit_logs w) (f (stdout w)) (uuid_draws w) (clock_reads w).

Definition set_call_sid (v : option string) (c : Call) : Call :=
  mkCall (call_id c) (call_organization_id c) (call_system_id c) (call_status c)
         (call_started_at c) (call_ended_at c) (call_created_by c) v.

Definition set_status (v : string) (c : Call) : Call :=
  mkCall (call_id c) (call_organization_id c) (call_system_id c) v
         (call_started_at c) (call_ended_at c) (call_created_by c) (call_call_sid c).

Definition set_started_at (v : option string) (c : Call) : Call :=
  mkCall (call_id c) (call_organization_id c) (call_system_id c) (call_status c)
         v (call_ended_at c) (call_created_by c) (call_call_sid c).

(** ** The simulator *)

Section Simulator.

Variable env : Env.

Definition print (p : printed) : M unit :=
  λ w, (Returned tt, set_stdout (λ out, out ++ [p]) w).

(** [uuid.uuid4()], as its 32 hex digits. *)
Definition uuid4 : M string :=
  λ w, (Returned (uuid4_hex env (uuid_draws w)),
        mkWorld (organizations w) (org_members w) (systems w) (calls w)
                (ai_runs w) (audit_logs w) (stdout w) (S (uuid_draws w)) (clock_reads w)).

(** [str(u)]: the digits in groups of 8, 4, 4, 4 and 12. *)
Definition uuid_str (h : string) : string :=
  String.substring 0 8 h +:+ "-" +:+ String.substring 8 4 h +:+ "-"
    +:+ String.substring 12 4 h +:+ "-" +:+ String.substring 16 4 h +:+ "-"
    +:+ String.substring 20 12 h.

Definition now : M string :=
  λ w, (Returned (utcnow_isoformat env (clock_reads w) +:+ "Z"),
        mkWorld (organizations w) (org_members w) (systems w) (calls w)
                (ai_runs w) (audit_logs w) (stdout w) (uuid_draws w) (S (clock_reads w))).

Definition write_audit (entry : AuditLog) : M unit :=
  (λ w, (Returned tt, set_audit_logs (λ l, l ++ [entry]) w)) ;;
  print (PAudit entry).

(** [input[k]] *)
Definition subscript (d : dict) (k : string) : M value :=
  match dict_lookup d k with
  | Some v => mret v
  | None => raise (KeyError k)
  end.

(** [organizations.get(k)]: the key is hashed first; the table's keys are
    strings, so any other hashable key finds nothing. *)
Definition organizations_get (k : value) : M (option Organization) :=
  λ w, match k with
       | VStr s => (Returned (organizations w !! s), w)
       | VList _ => (Raised (TypeError "unhashable type: 'list'"), w)
       | VDict _ => (Raised (TypeError "unhashable type: 'dict'"), w)
       | _ => (Returned None, w)
       end.

(** [next((m for m in org_members if ...), None)] *)
Definition find_member (oid : string) (actor : value) : M (option OrgMember) :=
  λ w, (Returned
          (List.find (λ m, String.eqb (member_organization_id m) oid
                           && str_eq_value (member_user_id m) actor)
                     (org_members w)), w).

(** [{ s['key']: s['id'] for s in systems }]: a later row of a key
    replaces an earlier one. *)
Definition build_system_map (l : list System) : gmap string string :=
  foldl (λ m s, <[system_key s := system_id s]> m) ∅ l.

Definition system_map : M (gmap string string) :=
  λ w, (Returned (build_system_map (systems w)), w).

(** [not x] for the result of [system_map.get(...)]. *)
Definition no_system (o : option string) : bool :=
  match o with
  | None => true
  | Some s => String.eqb s EmptyString
  end.

(** [v.get(k)] for a value [v]: only a dictionary has the method. *)
Definition method_get (v : value) (k : string) : M value :=
  match v with
  | VDict d => mret (default VNone (dict_lookup d k))
  | VNone => raise (AttributeError "'NoneType' object has no attribute 'get'")
  | VBool _ => raise (AttributeError "'bool' object has no attribute 'get'")
  | VInt _ => raise (AttributeError "'int' object has no attribute 'get'")
  | VStr _ => raise (AttributeError "'str' object has no attribute 'get'")
  | VList _ => raise (AttributeError "'list' object has no attribute 'get'")
  end.

(** [calls.append(call_row)]; the index of the row is handed back, since the
    list and the local variable [call_row] share the row from here on. *)
Definition append_call (row : Call) : M nat :=
  λ w, (Returned (length (calls w)), set_calls (λ l, l ++ [row]) w).

(** [call_row[field] = v]: the row is changed where it lives, in the
    [calls] list, and the local variable sees the change. *)
Definition mutate_call (idx : nat) (f : Call → Call) (row : Call) : M Call :=
  λ w, (Returned (f row), set_calls (alter f idx) w).

Definition append_ai_run (row : AiRun) : M unit :=
  λ w, (Returned tt, set_ai_runs (λ l, l ++ [row]) w).

Definition simulate_start_call (input : dict) (actor : value) : M result :=
  let errors0 : list (string * string) := [] in
  print PInvoked ;;
  print (PInput input) ;;
  (* 1) Auth check *)
  if negb (truthy actor) then
    let err := ("AUTH_REQUIRED", "Unauthenticated") in
    mret (mkResult false None (errors0 ++ [err]))
  else
  key ← subscript input "organization_id" ;
  o ← organizations_get key ;
  match o with
  | None =>
      mret (mkResult false None
              (errors0 ++ [("CALL_START_ORG_NOT_FOUND", "Organization not found")]))
  | Some org =>
  (* membership check *)
  member ← find_member (org_id org) actor ;
  match member with
  | None =>
      mret (mkResult false None
              (errors0 ++ [("AUTH_ORG_MISMATCH", "Actor not authorized for organization")]))
  | Some _ =>
  (* 2) Resolve systems *)
  smap ← system_map ;
  let sys_cpid := smap !! "system-cpid" in
  let sys_ai := smap !! "system-ai" in
  if no_system sys_cpid then
    mret (mkResult false None
            (errors0 ++ [("CALL_START_SYS_MISSING", "Control system not registered")]))
  else
  let sys_cpid := default EmptyString sys_cpid in
  (* 3) Insert calls row (status pending) *)
  h ← uuid4 ;
  let cid := uuid_str h in
  let call_row := mkCall cid (org_id org) sys_cpid "pending" None None actor None in
  idx ← append_call call_row ;
  print (PDbCall call_row) ;;
  (* 4) SignalWire call (simulate success) *)
  h ← uuid4 ;
  let call_sid := "SW_" +:+ String.substring 0 10 h in
  call_row ← mutate_call idx (set_call_sid (Some call_sid)) call_row ;
  call_row ← mutate_call idx (set_status "in-progress") call_row ;
  t ← now ;
  call_row ← mutate_call idx (set_started_at (Some t)) call_row ;
  print (PProvider call_sid) ;;
  (* 5) If transcribe requested -> insert ai_runs *)
  let mods := default (VDict []) (dict_lookup input "modulations") in
  transcribe ← method_get mods "transcribe" ;
  errors1 ←
    (if truthy transcribe then
       if no_system sys_ai then
         mret (errors0 ++ [("AI_SYSTEM_MISSING", "AI system not registered")])
       else
         h ← uuid4 ;
         let ai_row := mkAiRun (uuid_str h) cid (default EmptyString sys_ai) "assemblyai-v1"
                               "queued" None None None in
         append_ai_run ai_row ;;
         print (PDbAiRun ai_row) ;;
         mret errors0
     else mret errors0) ;
  (* 6) If record requested -> write audit intent *)
  record ← method_get mods "record" ;
  (if truthy record then
     h ← uuid4 ;
     requested_at ← now ;
     created_at ← now ;
     write_audit (mkAuditLog (uuid_str h) (org_id org) actor sys_cpid "calls" cid
                             "intent:recording_requested" None
                             (IntentSnapshot (org_tool_id org) requested_at)
                             created_at)
   else mret tt) ;;
  (* 7) Final create audit *)
  let canonical := call_row in
  h ← uuid4 ;
  created_at ← now ;
  write_audit (mkAuditLog (uuid_str h) (org_id org) actor sys_cpid "calls" cid
                          "create" None
                          (CallSnapshot (set_call_sid (Some call_sid) canonical) mods)
                          created_at) ;;
  mret (mkResult true (Some cid) errors1)
  end
  end.

(** *** The successful path in closed form

    What the function leaves behind once the four checks have passed, in
    terms of the world it started from: the organization found, the id
    [cp] that ["system-cpid"] resolves to, the actor and the modulations. *)

Definition ai_run_created (w : World) (mods : dict) : bool :=
  truthy (default VNone (dict_lookup mods "transcribe"))
  && negb (no_system (build_system_map (systems w) !! "system-ai")).

Definition ai_system_missing (w : World) (mods : dict) : bool :=
  truthy (default VNone (dict_lookup mods "transcribe"))
  && no_system (build_system_map (systems w) !! "system-ai").

Definition record_requested (mods : dict) : bool :=
  truthy (default VNone (dict_lookup mods "record")).

Definition new_call_id (w : World) : string :=
  uuid_str (uuid4_hex env (uuid_draws w)).

Definition started_call (w : World) (org : Organization) (cp : string)
    (actor : value) : Call :=
  mkCall (new_call_id w) (org_id org) cp "in-progress"
         (Some (utcnow_isoformat env (clock_reads w) +:+ "Z")) None actor
         (Some ("SW_" +:+ String.substring 0 10 (uuid4_hex env (S (uuid_draws w))))).

Definition queued_ai_runs (w : World) (mods : dict) : list AiRun :=
  if ai_run_created w mods then
    [mkAiRun (uuid_str (uuid4_hex env (2 + uuid_draws w))) (new_call_id w)
             (default EmptyString (build_system_map (systems w) !! "system-ai"))
             "assemblyai-v1" "queued" None None None]
  else [].

Definition intent_entries (w : World) (org : Organization) (cp : string)
    (actor : value) (mods : dict) : list AuditLog :=
  if record_requested mods then
    [mkAuditLog
       (uuid_str (uuid4_hex env (2 + length (queued_ai_runs w mods) + uuid_draws w)))
       (org_id org) actor cp "calls" (new_call_id w)
       "intent:recording_requested" None
       (IntentSnapshot (org_tool_id org)
          (utcnow_isoformat env (1 + clock_reads w) +:+ "Z"))
       (utcnow_isoformat env (2 + clock_reads w) +:+ "Z")]
  else [].

Definition create_entry (w : World) (org : Organization) (cp : string)
    (actor : value) (mods : dict) : AuditLog :=
  let n := length (intent_entries w org cp actor mods) in
  mkAuditLog
    (uuid_str (uuid4_hex env (2 + length (queued_ai_runs w mods) + n + uuid_draws w)))
    (org_id org) actor cp "calls" (new_call_id w)
    "create" None
    (CallSnapshot (started_call w org cp actor) (VDict mods))
    (utcnow_isoformat env (1 + 2 * n + clock_reads w) +:+ "Z").

Definition soft_errors (w : World) (mods : dict) : list (string * string) :=
  if ai_system_missing w mods
  then [("AI_SYSTEM_MISSING", "AI system not registered")] else [].

End Simulator.

(** [simulate_start_call(input)]: a call that leaves the second argument
    out runs with the default of the parameter, [actor='user-1']; this is how
    the [__main__] block calls the function. *)
Definition simulate_start_call_default (env : Env) (input : dict) : M result :=
  simulate_start_call env input (VStr "user-1").

(** ** The preconditions, as the specification words them *)

(** 1. The actor is non-empty. *)
Definition actor_present (actor : value) : Prop := truthy actor = true.

(** 2. [organizations[input.organization_id]] exists. *)
Definition organization_found (w : World) (input : dict) (org : Organization) : Prop :=
  ∃ s, dict_lookup input "organization_id" = Some (VStr s)
       ∧ organizations w !! s = Some org.

Definition organization_exists (w : World) (input : dict) : Prop :=
  ∃ org, organization_found w input org.

(** 3. An OrgMember row links the actor to that organization. *)
Definition links (m : OrgMember) (actor : value) (org : Organization) : Prop :=
  member_organization_id m = org_id org ∧ actor = VStr (member_user_id m).

Definition member_linked (w : World) (actor : value) (org : Organization) : Prop :=
  ∃ m, m ∈ org_members w ∧ links m actor org.

Definition member_exists (w : World) (input : dict) (actor : value) : Prop :=
  ∃ org, organization_found w input org ∧ member_linked w actor org.

(** 4. A system is registered under a key when the key resolves to an id
    that the check [if not sys_...] accepts.  A row whose id is the empty
    string does not register its key: the function then reports
    ['Control system not registered']. *)
Definition system_resolves (w : World) (key id : string) : Prop :=
  build_system_map (systems w) !! key = Some id ∧ id ≠ EmptyString.

Definition system_registered (w : World) (key : string) : Prop :=
  ∃ id, system_resolves w key id.

Definition preconditions_pass (w : World) (input : dict) (actor : value) : Prop :=
  actor_present actor ∧ organization_exists w input
  ∧ member_exists w input actor ∧ system_registered w "system-cpid".

(** The code of the first precondition, in the order 1 to 4, that fails. *)
Inductive first_failed_precondition (w : World) (input : dict) (actor : value)
  : string → Prop :=
| failed_actor :
    ¬ actor_present actor →
    first_failed_precondition w input actor "AUTH_REQUIRED"
| failed_organization :
    actor_present actor → ¬ organization_exists w input →
    first_failed_precondition w input actor "CALL_START_ORG_NOT_FOUND"
| failed_member :
    actor_present actor → organization_exists w input →
    ¬ member_exists w input actor →
    first_failed_precondition w input actor "AUTH_ORG_MISMATCH"
| failed_system :
    actor_present actor → organization_exists w input →
    member_exists w input actor → ¬ system_registered w "system-cpid" →
    first_failed_precondition w input actor "CALL_START_SYS_MISSING".

(** The world after the two opening [print] calls: the only change a run
    that fails a precondition makes. *)
Definition invoked (input : dict) (w : World) : World :=
  set_stdout (λ out, out ++ [PInput input])
             (set_stdout (λ out, out ++ [PInvoked]) w).

(** ** The runs of the function, case by case *)

(** What a run that passed the four checks has done to the tables. *)
Definition started (env : Env) (w w' : World) (org : Organization) (cp : string)
    (actor : value) (mods : dict) : Prop :=
  organizations w' = organizations w
  ∧ org_members w' = org_members w
  ∧ systems w' = systems w
  ∧ calls w' = calls w ++ [started_call env w org cp actor]
  ∧ ai_runs w' = ai_runs w ++ queued_ai_runs env w mods
  ∧ audit_logs w' = audit_logs w ++ intent_entries env w org cp actor mods
                      ++ [create_entry env w org cp actor mods].

Definition failure (code msg : string) : result :=
  mkResult false None [(code, msg)].

(** The eight ways a call can go: four refusals, the call started, and the
    three places where Python raises instead of returning. *)
Inductive run_spec (env : Env) (input : dict) (actor : value) (w : World)
  : outcome result → World → Prop :=
| run_auth_required :
    truthy actor = false →
    run_spec env input actor w
      (Returned (failure "AUTH_REQUIRED" "Unauthenticated")) (invoked input w)
| run_key_error :
    truthy actor = true →
    dict_lookup input "organization_id" = None →
    run_spec env input actor w
      (Raised (KeyError "organization_id")) (invoked input w)
| run_unhashable k msg :
    truthy actor = true →
    dict_lookup input "organization_id" = Some k →
    hashable k = false →
    run_spec env input actor w (Raised (TypeError msg)) (invoked input w)
| run_org_not_found k :
    truthy actor = true →
    dict_lookup input "organization_id" = Some k →
    hashable k = true →
    (∀ s, k = VStr s → organizations w !! s = None) →
    run_spec env input actor w
      (Returned (failure "CALL_START_ORG_NOT_FOUND" "Organization not found"))
      (invoked input w)
| run_org_mismatch org :
    truthy actor = true →
    organization_found w input org →
    ¬ member_linked w actor org →
    run_spec env input actor w
      (Returned (failure "AUTH_ORG_MISMATCH" "Actor not authorized for organization"))
      (invoked input w)
| run_sys_missing org :
    truthy actor = true →
    organization_found w input org →
    member_linked w actor org →
    ¬ system_registered w "system-cpid" →
    run_spec env input actor w
      (Returned (failure "CALL_START_SYS_MISSING" "Control system not registered"))
      (invoked input w)
| run_attribute_error org cp v msg w' :
    truthy actor = true →
    organization_found w input org →
    member_linked w actor org →
    system_resolves w "system-cpid" cp →
    dict_lookup input "modulations" = Some v →
    (∀ d, v ≠ VDict d) →
    calls w' = calls w ++ [started_call env w org cp actor] →
    ai_runs w' = ai_runs w →
    audit_logs w' = audit_logs w →
    run_spec env input actor w (Raised (AttributeError msg)) w'
| run_started org cp mods w' :
    truthy actor = true →
    organization_found w input org →
    member_linked w actor org →
    system_resolves w "system-cpid" cp →
    default (VDict []) (dict_lookup input "modulations") = VDict mods →
    started env w w' org cp actor mods →
    run_spec env input actor w
      (Returned (mkResult true (Some (new_call_id env w)) (soft_errors w mods))) w'.

(** ** Audit pairing *)

(** The rows a run appended to a table. *)
Definition appended {A} (before after : list A) : list A :=
  drop (length before) after.

(** An intent record: its action starts with ["intent:"]. *)
Definition is_intent (e : AuditLog) : bool :=
  String.prefix "intent:" (audit_action e).

(** The entries of [logs] that record a change of the row [rid]: those that
    name the row and are not intent records. *)
Definition transition_entries (logs : list AuditLog) (rid : string) : list AuditLog :=
  List.filter (λ e, String.eqb (audit_resource_id e) rid && negb (is_intent e)) logs.

(** Every Call row and every AiRun row the run created or changed is paired
    with exactly one entry among those the run appended. *)
Definition every_change_audited (w w' : World) : Prop :=
  (∀ c, c ∈ appended (calls w) (calls w') →
        length (transition_entries (appended (audit_logs w) (audit_logs w')) (call_id c)) = 1)
  ∧ (∀ a, a ∈ appended (ai_runs w) (ai_runs w') →
        length (transition_entries (appended (audit_logs w) (audit_logs w')) (ai_id a)) = 1).

(** ** The module as loaded *)

(** The tables as the module defines them, nothing printed or drawn yet. *)
Definition initial_world : World :=
  mkWorld {[ "org-1" := mkOrganization "org-1" "ACME" "paid" "tool-1" "user-1" ]}
          [mkOrgMember "m-1" "org-1" "user-1" "admin"]
          [mkSystem "sys-cpid" "system-cpid"; mkSystem "sys-ai" "system-ai"]
          [] [] [] [] 0 0.

(** A sample run of the two sources of fresh data. *)
Definition sample_env : Env :=
  mkEnv (λ n, match n with
              | 0 => "00000000111122223333444444444444"
              | 1 => "aaaaaaaabbbbccccddddeeeeeeeeeeee"
              | 2 => "22222222333344445555666666666666"
              | 3 => "33333333444455556666777777777777"
              | _ => "99999999888877776666555555555555"
              end)
        (λ n, match n with
              | 0 => "2024-01-01T00:00:00"
              | 1 => "2024-01-01T00:00:01"
              | _ => "2024-01-01T00:00:02"
              end).

(** The input of the module's [__main__] block. *)
Definition example_input : dict :=
  [("organization_id", VStr "org-1");
   ("phone_number", VStr "+15555551234");
   ("modulations", VDict [("record", VBool true); ("transcribe", VBool true)])].

(** ** Tables that contain given rows *)

(** The organization [oid], stored under its id. *)
Definition has_organization (w : World) (oid : string) : Prop :=
  ∃ org, organizations w !! oid = Some org ∧ org_id org = oid.

(** An OrgMember row linking the user [uid] to the organization [oid]. *)
Definition has_member (w : World) (uid oid : string) : Prop :=
  ∃ m, m ∈ org_members w
       ∧ member_organization_id m = oid ∧ member_user_id m = uid.

(** A System row with the key [key], whatever its id. *)
Definition has_system (w : World) (key : string) : Prop :=
  ∃ s, s ∈ systems w ∧ system_key s = key.

(** The module's tables, except that the one system row, of key
    ['system-cpid'], has the empty string as its id. *)
Definition blank_id_world : World :=
  mkWorld {[ "org-1" := mkOrganization "org-1" "ACME" "paid" "tool-1" "user-1" ]}
          [mkOrgMember "m-1" "org-1" "user-1" "admin"]
          [mkSystem EmptyString "system-cpid"]
          [] [] [] [] 0 0.

(** The module's tables without the ['system-ai'] row. *)
Definition no_ai_world : World :=
  mkWorld {[ "org-1" := mkOrganization "org-1" "ACME" "paid" "tool-1" "user-1" ]}
          [mkOrgMember "m-1" "org-1" "user-1" "admin"]
          [mkSystem "sys-cpid" "system-cpid"]
          [] [] [] [] 0 0.

Definition plain_input : dict :=
  [("organization_id", VStr "org-1"); ("modulations", VDict [])].

Definition transcribe_input : dict :=
  [("organization_id", VStr "org-1");
   ("modulations", VDict [("transcribe", VBool true)])].

Definition record_input : dict :=
  [("organization_id", VStr "org-1");
   ("modulations", VDict [("record", VBool true)])].

(** ** The permission-matrix builder *)

Module PermissionMatrix.

(** The exception monad of the script: it has no state of its own, and an
    exception ends it before anything is printed. *)
Global Instance outcome_ret : MRet outcome := λ A a, Returned a.
Global Instance outcome_bind : MBind outcome := λ A B f m,
  match m with
  | Returned a => f a
  | Raised e => Raised e
  end.

(** A value of [updated[tbl]]: the columns allowed to an operation, or the
    modules table stored under ['allowed_modules']. *)
Inductive field : Type :=
| Columns (cols : list string)
| Modules (m : list (string * list string)).

Definition entry : Type := list (string * field).

Record output := mkOutput {
  matrix : list (string * entry);
  tables_in_schema : list string;
  errors : list string
}.

(** [d[k] = v] on an insertion-ordered dictionary: a key already there
    keeps its place. *)
Fixpoint dict_set {V} (k : string) (v : V) (d : list (string * V)) : list (string * V) :=
  match d with
  | [] => [(k, v)]
  | (k', v') :: d' =>
      if String.eqb k' k then (k, v) :: d' else (k', v') :: dict_set k v d'
  end.

Fixpoint dict_has {V} (k : string) (d : list (string * V)) : bool :=
  match d with
  | [] => false
  | (k', _) :: d' => String.eqb k' k || dict_has k d'
  end.

(** [tool.items()] *)
Definition items (v : value) : outcome dict :=
  match v with
  | VDict d => Returned d
  | VNone => Raised (AttributeError "'NoneType' object has no attribute 'items'")
  | VBool _ => Raised (AttributeError "'bool' object has no attribute 'items'")
  | VInt _ => Raised (AttributeError "'int' object has no attribute 'items'")
  | VStr _ => Raised (AttributeError "'str' object has no attribute 'items'")
  | VList _ => Raised (AttributeError "'list' object has no attribute 'items'")
  end.

(** [perms.get(op, [])] *)
Definition perms_get (perms : value) (op : string) : outcome value :=
  match perms with
  | VDict d => Returned (default (VList []) (dict_lookup d op))
  | VNone => Raised (AttributeError "'NoneType' object has no attribute 'get'")
  | VBool _ => Raised (AttributeError "'bool' object has no attribute 'get'")
  | VInt _ => Raised (AttributeError "'int' object has no attribute 'get'")
  | VStr _ => Raised (AttributeError "'str' object has no attribute 'get'")
  | VList _ => Raised (AttributeError "'list' object has no attribute 'get'")
  end.

Fixpoint chars (s : string) : list value :=
  match s with
  | EmptyString => []
  | String c s' => VStr (String c EmptyString) :: chars s'
  end.

(** [for c in cols]: a list gives its elements, a string its characters
    (one-character strings), a dictionary its keys; nothing else can be
    iterated. *)
Definition iterate (cols : value) : outcome (list value) :=
  match cols with
  | VList l => Returned l
  | VStr s => Returned (chars s)
  | VDict d => Returned (map (λ kv, VStr kv.1) d)
  | VNone => Raised (TypeError "'NoneType' object is not iterable")
  | VBool _ => Raised (TypeError "'bool' object is not iterable")
  | VInt _ => Raised (TypeError "'int' object is not iterable")
  end.

(** [[c for c in cols if c in schema_cols]]: membership in the set hashes
    [c]; only a string can be equal to a column name, and the strings that
    pass are what the new list holds. *)
Fixpoint filter_present (schema_cols : gset string) (cols : list value)
  : outcome (list string) :=
  match cols with
  | [] => Returned []
  | c :: rest =>
      match c with
      | VStr s =>
          filtered ← filter_present schema_cols rest ;
          Returned (if bool_decide (s ∈ schema_cols) then s :: filtered else filtered)
      | VList _ => Raised (TypeError "unhashable type: 'list'")
      | VDict _ => Raised (TypeError "unhashable type: 'dict'")
      | _ => filter_present schema_cols rest
      end
  end.

Definition allowed_modules : field :=
  Modules [("GET", ["ui"; "server_actions"; "api_routes"]);
           ("POST", ["server_actions"]);
           ("PUT", ["server_actions"]);
           ("DELETE", ["server_actions"])].

Definition filtered_op (schema_cols : gset string) (perms : value) (op : string)
  : outcome (list string) :=
  cols ← perms_get perms op ;
  elems ← iterate cols ;
  filter_present schema_cols elems.

(** The body of the first loop, for a table the schema has. *)
Definition table_entry (schema_cols : gset string) (perms : value) : outcome entry :=
  get ← filtered_op schema_cols perms "GET" ;
  post ← filtered_op schema_cols perms "POST" ;
  put ← filtered_op schema_cols perms "PUT" ;
  delete ← filtered_op schema_cols perms "DELETE" ;
  Returned [("GET", Columns get); ("POST", Columns post); ("PUT", Columns put);
            ("DELETE", Columns delete); ("allowed_modules", allowed_modules)].

(** [for tbl, perms in tool.items()] *)
Fixpoint build_updated (tables : gmap string (list string)) (tool : dict)
    (updated : list (string * entry)) : outcome (list (string * entry)) :=
  match tool with
  | [] => Returned updated
  | (tbl, perms) :: rest =>
      match tables !! tbl with
      | None => build_updated tables rest updated
      | Some cols =>
          e ← table_entry (list_to_set cols) perms ;
          build_updated tables rest (dict_set tbl e updated)
      end
  end.

(** [for required in ['calls','ai_runs']] *)
Definition ensure_required (tables : gmap string (list string)) (required : string)
    (updated : list (string * entry)) : list (string * entry) :=
  match tables !! required with
  | Some cols =>
      if dict_has required updated then updated
      else dict_set required
             [("GET", Columns cols); ("POST", Columns []); ("PUT", Columns []);
              ("DELETE", Columns []); ("allowed_modules", allowed_modules)]
             updated
  | None => updated
  end.

(** The validation loops. *)
Definition column_errors (tables : gmap string (list string)) (tbl op : string)
    (cols : list string) : list string :=
  flat_map (λ c, if bool_decide (c ∈ default [] (tables !! tbl)) then []
                 else [tbl +:+ "." +:+ op +:+ " includes unknown column " +:+ c])
           cols.

Definition entry_errors (tables : gmap string (list string)) (tbl : string)
    (perms : entry) : list string :=
  flat_map (λ '(op, f),
              if String.eqb op "allowed_modules" then []
              else match f with
                   | Columns cols => column_errors tables tbl op cols
                   | Modules m => flat_map (λ kv, column_errors tables tbl op [kv.1]) m
                   end)
           perms.

Definition validate (tables : gmap string (list string))
    (updated : list (string * entry)) : list string :=
  flat_map (λ '(tbl, perms), entry_errors tables tbl perms) updated.

Definition string_le (a b : string) : Prop := String.leb a b = true.

Global Instance string_le_dec a b : Decision (string_le a b).
Proof. unfold string_le. apply _. Defined.

Section Script.

(** The first loop of the script (the [CREATE TABLE] pattern and the column
    pattern, applied to the schema text) is kept abstract: what follows
    reads only the dictionary [tables] that it leaves. *)
Variable parse_tables : string → gmap string (list string).

(** The script, from the decoded permission table and the schema text to
    what it prints. *)
Definition build_permission_matrix (tool : value) (schema_sql : string)
  : outcome output :=
  let tables := parse_tables schema_sql in
  its ← items tool ;
  updated ← build_updated tables its [] ;
  let updated := ensure_required tables "calls" updated in
  let updated := ensure_required tables "ai_runs" updated in
  Returned (mkOutput updated
              (merge_sort string_le (map fst (map_to_list tables)))
              (validate tables updated)).

End Script.

(** A column list of the matrix, by table and operation. *)
Definition listed (out : output) (tbl op : string) (cols : list string) : Prop :=
  ∃ e, (tbl, e) ∈ matrix out ∧ (op, Columns cols) ∈ e.

(** A column present in a table of the parsed schema. *)
Definition in_schema (tables : gmap string (list string)) (tbl c : string) : Prop :=
  ∃ cols, tables !! tbl = Some cols ∧ c ∈ cols.

(** What the loops keep true of [updated]: a column list holds columns of
    its table only, and the modules table sits under ['allowed_modules']. *)
Definition entry_ok (tables : gmap string (list string)) (tbl : string)
    (e : entry) : Prop :=
  ∀ op f, (op, f) ∈ e →
    match f with
    | Columns cols => ∀ c, c ∈ cols → in_schema tables tbl c
    | Modules _ => op = "allowed_modules"
    end.

Definition matrix_ok (tables : gmap string (list string))
    (updated : list (string * entry)) : Prop :=
  ∀ tbl e, (tbl, e) ∈ updated → entry_ok tables tbl e.

(** A small schema and a permission table with a stale column, a table the
    schema lacks, and no entry for [ai_runs]. *)
Definition sample_tables : gmap string (list string) :=
  {[ "calls" := ["id"; "status"]; "ai_runs" := ["id"; "call_id"] ]}.

Definition sample_tool : value :=
  VDict [("calls", VDict [("GET", VList [VStr "id"; VStr "stale"; VInt 3]);
                          ("PUT", VList [VStr "status"])]);
         ("ghosts", VDict [("GET", VList [VStr "id"])])].

(** What the script prints for them. *)
Definition sample_output : output :=
  mkOutput
    [("calls", [("GET", Columns ["id"]); ("POST", Columns []);
                ("PUT", Columns ["status"]); ("DELETE", Columns []);
                ("allowed_modules", allowed_modules)]);
     ("ai_runs", [("GET", Columns ["id"; "call_id"]); ("POST", Columns []);
                  ("PUT", Columns []); ("DELETE", Columns []);
                  ("allowed_modules", allowed_modules)])]
    ["ai_runs"; "calls"] [].

(** *** More vocabulary for the builder *)

(** [['GET','POST','PUT','DELETE']] *)
Definition operations : list string := ["GET"; "POST"; "PUT"; "DELETE"].

(** The keys of every entry of the matrix, in the order they are set. *)
Definition entry_keys : list string := operations ++ ["allowed_modules"].

(** A JSON list of strings. *)
Definition strings (l : list string) : value := VList (VStr <$> l).

(** The entry given to a required table that the permission table lacks:
    every column of the schema under [GET], nothing under the others. *)
Definition default_entry (cols : list string) : entry :=
  [("GET", Columns cols); ("POST", Columns []); ("PUT", Columns []);
   ("DELETE", Columns []); ("allowed_modules", allowed_modules)].

(** Permissions the first loop can process: a dictionary whose values under
    the four operations, where present, are lists of hashable values. *)
Definition perms_usable (perms : value) : Prop :=
  ∃ p, perms = VDict p
       ∧ ∀ op v, op ∈ operations → dict_lookup p op = Some v →
           ∃ l, v = VList l ∧ Forall (λ c, hashable c = true) l.

(** What the loops keep true of the shape of [updated]. *)
Definition shaped (tables : gmap string (list string))
    (updated : list (string * entry)) : Prop :=
  NoDup updated.*1
  ∧ ∀ tbl e, (tbl, e) ∈ updated →
      is_Some (tables !! tbl) ∧ e.*1 = entry_keys
      ∧ ("allowed_modules", allowed_modules) ∈ e.

(** A permission table in which the table the schema lacks has an entry the
    first loop could not process. *)
Definition ghost_crash_tool : value :=
  VDict [("calls", VDict [("GET", strings ["id"; "stale"; "status"])]);
         ("ghosts", VInt 7)].

End PermissionMatrix.
(** ** More vocabulary for the simulator *)

(** The dictionary the function reads the modulations from:
    [input.get('modulations', {})], when that is a dictionary. *)
Definition modulations_of (input : dict) (mods : dict) : Prop :=
  default (VDict []) (dict_lookup input "modulations") = VDict mods.

(** [mods.get('transcribe')] is truthy. *)
Definition transcribe_requested (mods : dict) : bool :=
  truthy (default VNone (dict_lookup mods "transcribe")).

(** The input has an ['organization_id'] that can be hashed. *)
Definition organization_id_usable (input : dict) : Prop :=
  ∃ k, dict_lookup input "organization_id" = Some k ∧ hashable k = true.

(** The input has a ['modulations'] entry that is not a dictionary. *)
Definition modulations_unusable (input : dict) : Prop :=
  ∃ v, dict_lookup input "modulations" = Some v ∧ ∀ d, v ≠ VDict d.

(** An input for ['org-1'] whose ['modulations'] entry is a string. *)
Definition bad_modulations_input : dict :=
  [("organization_id", VStr "org-1"); ("modulations", VStr "record")].

(** ** The API contract validator *)

Module ApiContract.

(** The tables an action reads or writes, each with the columns it uses. *)
Abbreviation references := (list (string * list string)).

(** The [api] literal of the script. *)
Definition api : list (string * list (string * references)) :=
  [("startCall",
    [("reads",
      [("organizations", ["id"; "plan"; "tool_id"; "created_by"]);
       ("org_members", ["id"; "organization_id"; "user_id"]);
       ("systems", ["id"; "key"])]);
     ("writes",
      [("calls", ["id"; "organization_id"; "system_id"; "status"; "started_at";
                  "ended_at"; "created_by"; "call_sid"]);
       ("ai_runs", ["id"; "call_id"; "system_id"; "model"; "status"]);
       ("audit_logs", ["id"; "organization_id"; "user_id"; "system_id";
                       "resource_type"; "resource_id"; "action"; "before";
                       "after"])])]);
   ("getCallStatus",
    [("reads",
      [("calls", ["id"; "organization_id"; "system_id"; "status"; "started_at";
                  "ended_at"; "created_by"; "call_sid"]);
       ("ai_runs", ["id"; "call_id"; "system_id"; "model"; "status";
                    "started_at"; "completed_at"; "output"]);
       ("audit_logs", ["id"; "action"; "after"; "created_at"]);
       ("recordings", ["id"; "recording_sid"; "recording_url";
                       "duration_seconds"; "status"; "created_at"; "tool_id"]);
       ("evidence_manifests", ["id"; "recording_id"; "manifest"; "created_at"])]);
     ("writes",
      [("audit_logs", ["id"; "organization_id"; "user_id"; "system_id";
                       "resource_type"; "resource_id"; "action"; "before";
                       "after"])])]);
   ("triggerTranscription",
    [("reads",
      [("recordings", ["id"; "organization_id"; "recording_url"; "status";
                       "tool_id"])]);
     ("writes",
      [("ai_runs", ["id"; "call_id"; "system_id"; "model"; "status";
                    "started_at"]);
       ("audit_logs", ["id"; "organization_id"; "user_id"; "system_id";
                       "resource_type"; "resource_id"; "action"; "before";
                       "after"])])]);
   ("getCallActivity",
    [("reads",
      [("audit_logs", ["id"; "organization_id"; "user_id"; "system_id";
                       "resource_type"; "resource_id"; "action"; "before";
                       "after"; "created_at"])]);
     ("writes", [])])].

Fixpoint assoc {V} (d : list (string * V)) (k : string) : option V :=
  match d with
  | [] => None
  | (k', v) :: d' => if String.eqb k' k then Some v else assoc d' k
  end.

(** [ops.get(mode, {})] *)
Definition ops_get (ops : list (string * references)) (mode : string) : references :=
  default [] (assoc ops mode).

(** The body of the loop over the tables of a mode: a table the schema lacks
    is reported once, and its columns are not looked at. *)
Definition reference_errors (tables : gmap string (list string)) (action : string)
    (ref : string * list string) : list string :=
  match tables !! ref.1 with
  | None => ["Action " +:+ action +:+ " references missing table " +:+ ref.1]
  | Some present =>
      flat_map (λ c, if bool_decide (c ∈ present) then []
                     else ["Action " +:+ action +:+ " references missing column "
                           +:+ ref.1 +:+ "." +:+ c])
               ref.2
  end.

Definition action_errors (tables : gmap string (list string))
    (entry : string * list (string * references)) : list string :=
  flat_map (λ mode, flat_map (reference_errors tables entry.1) (ops_get entry.2 mode))
           ["reads"; "writes"].

Definition contract_errors (tables : gmap string (list string))
    (contract : list (string * list (string * references))) : list string :=
  flat_map (action_errors tables) contract.

Record verdict := mkVerdict {
  valid : bool;
  errors : list string
}.

(** A reference of the contract: an action, one of its two modes, a table
    and the columns used. *)
Definition referenced (action tbl : string) (cols : list string) : Prop :=
  ∃ ops mode, (action, ops) ∈ api ∧ mode ∈ ["reads"; "writes"]
              ∧ (tbl, cols) ∈ ops_get ops mode.

Section Script.

(** The schema-parsing loop, the same as in the matrix builder, is kept
    abstract here as well. *)
Variable parse_tables : string → gmap string (list string).

(** [{'valid': len(errors)==0, 'errors': errors}] *)
Definition validate_api_contract (sql : string) : verdict :=
  let errors := contract_errors (parse_tables sql) api in
  mkVerdict (Nat.eqb (length errors) 0) errors.

End Script.

(** A schema with every table of the contract but [recordings]. *)
Definition partial_tables : gmap string (list string) :=
  {[ "audit_logs" := ["id"; "organization_id"; "user_id"; "system_id";
                      "resource_type"; "resource_id"; "action"; "before";
                      "after"; "created_at"] ]}.

End ApiContract.

(** ** The toggle of a modulation *)

Module Toggle.

(** [toggle(mods, key)]: [prev] is a copy taken before the change; the
    dictionary passed in is changed in place and handed back, so the second
    component is also what the caller's dictionary holds afterwards. *)
Definition toggle (mods : dict) (key : string) : dict * dict :=
  let prev := mods in
  let flipped := VBool (negb (truthy (default (VBool false) (dict_lookup mods key)))) in
  (prev, PermissionMatrix.dict_set key flipped mods).

(** The [initial] dictionary of the [__main__] block. *)
Definition initial : dict :=
  [("record", VBool false); ("transcribe", VBool false); ("translate", VBool false);
   ("survey", VBool false); ("synthetic_caller", VBool false)].

End Toggle.

(** ** The manifest check *)

Module Manifest.

(** [isinstance(v, str)] and [isinstance(v, list)] *)
Definition is_str (v : value) : bool :=
  match v with VStr _ => true | _ => false end.

Definition is_list (v : value) : bool :=
  match v with VList _ => true | _ => false end.

(** [v.get(k)] *)
Definition get (v : value) (k : string) : outcome value :=
  match v with
  | VDict d => Returned (default VNone (dict_lookup d k))
  | VNone => Raised (AttributeError "'NoneType' object has no attribute 'get'")
  | VBool _ => Raised (AttributeError "'bool' object has no attribute 'get'")
  | VInt _ => Raised (AttributeError "'int' object has no attribute 'get'")
  | VStr _ => Raised (AttributeError "'str' object has no attribute 'get'")
  | VList _ => Raised (AttributeError "'list' object has no attribute 'get'")
  end.

(** The state of the checks: the flag [ok] and the list [errors]. *)
Record checks := mkChecks {
  ok : bool;
  errors : list string
}.

(** [ok = False; errors.append(msg)] *)
Definition fail (msg : string) (c : checks) : checks :=
  mkChecks false (errors c ++ [msg]).

(** [errors.append(msg)], the flag left alone. *)
Definition note (msg : string) (c : checks) : checks :=
  mkChecks (ok c) (errors c ++ [msg]).

(** The body of [for i,a in enumerate(art)]. *)
Definition check_artifact (i : nat) (a : value) (c : checks) : outcome checks :=
  type ← get a "type" ;
  let c := if is_str type then c
           else fail ("artifact[" +:+ pretty i +:+ "].type missing or not string") c in
  id ← get a "id" ;
  let c := if is_str id then c
           else fail ("artifact[" +:+ pretty i +:+ "].id missing or not string") c in
  Returned c.

Fixpoint check_artifacts (i : nat) (art : list value) (c : checks) : outcome checks :=
  match art with
  | [] => Returned c
  | a :: rest => c ← check_artifact i a c ; check_artifacts (S i) rest c
  end.

(** The checks, from [ok = True] to the test of [manifest_hash]. *)
Definition check_manifest (m : value) : outcome checks :=
  let c := mkChecks true [] in
  manifest_id ← get m "manifest_id" ;
  let c := if is_str manifest_id then c
           else fail "manifest_id missing or not a string" c in
  created_at ← get m "created_at" ;
  let c := if is_str created_at then c
           else fail "created_at missing or not a string" c in
  art ← get m "artifacts" ;
  c ← match art with
      | VList [] => Returned (note "artifacts list is empty" c)
      | VList items => check_artifacts 0 items c
      | _ => Returned (fail "artifacts missing or not a list" c)
      end ;
  manifest_hash ← get m "manifest_hash" ;
  let c := if is_str manifest_hash then c
           else note "manifest_hash missing or not a string" c in
  Returned c.

(** What the script prints, one constructor per [print] call. *)
Inductive line : Type :=
| LineOk
| LineManifestId (v : value)
| LineArtifacts (n : nat)
| LineFailed
| LineError (e : string).

(** [len(v)], for the values that have a length. *)
Definition len (v : value) : outcome nat :=
  match v with
  | VList l => Returned (length l)
  | VDict d => Returned (length d)
  | VStr s => Returned (String.length s)
  | VNone => Raised (TypeError "object of type 'NoneType' has no len()")
  | VBool _ => Raised (TypeError "object of type 'bool' has no len()")
  | VInt _ => Raised (TypeError "object of type 'int' has no len()")
  end.

(** How the script ends once the manifest is decoded: what it printed and
    its exit status (1 through [SystemExit(1)]), or the exception that
    stops it. *)
Definition report (m : value) : outcome (list line * nat) :=
  c ← check_manifest m ;
  if ok c then
    manifest_id ← get m "manifest_id" ;
    art ← get m "artifacts" ;
    n ← len (if truthy art then art else VList []) ;
    Returned ([LineOk; LineManifestId manifest_id; LineArtifacts n], 0)
  else
    Returned (LineFailed :: (LineError <$> errors c), 1).

(** An artifact with a string [type] and a string [id]. *)
Definition artifact_ok (a : value) : Prop :=
  ∃ d, a = VDict d
       ∧ is_str (default VNone (dict_lookup d "type")) = true
       ∧ is_str (default VNone (dict_lookup d "id")) = true.

(** The same, as the two [isinstance] tests compute it. *)
Definition artifact_good (a : value) : bool :=
  match a with
  | VDict d => is_str (default VNone (dict_lookup d "type"))
               && is_str (default VNone (dict_lookup d "id"))
  | _ => false
  end.

(** An artifact is a dictionary. *)
Definition artifact_dict (a : value) : Prop := ∃ d, a = VDict d.

(** A manifest with its id, its date and one artifact, and no hash. *)
Definition sample_manifest : value :=
  VDict [("manifest_id", VStr "m-1"); ("created_at", VStr "2026-01-09T00:00:00Z");
         ("artifacts", VList [VDict [("type", VStr "recording"); ("id", VStr "r-1")]])].

End Manifest.

(** * Properties of the simulator *)

Section SimulatorFacts.

Variable env : Env.

Lemma alter_last {A} (f : A → A) (l : list A) (x : A) :
  alter f (length l) (l ++ [x]) = l ++ [f x].
Proof.
  replace (length l) with (length l + 0) by lia.
  by rewrite alter_app_r.
Qed.

Lemma no_system_resolves (w : World) (key : string) :
  no_system (build_system_map (systems w) !! key) = false ↔ system_registered w key.
Proof.
  unfold system_registered, system_resolves.
  destruct (build_system_map (systems w) !! key) as [id|]; simpl.
  - rewrite String.eqb_neq. split.
    + intros Hne. by exists id.
    + by intros (id' & [= ->] & Hne).
  - split; [done | by intros (id & ? & _)].
Qed.

Lemma system_map_fold_is_Some (l : list System) (m : gmap string string)
    (key : string) :
  is_Some (foldl (λ m s, <[system_key s := system_id s]> m) m l !! key)
  ↔ is_Some (m !! key) ∨ ∃ s, s ∈ l ∧ system_key s = key.
Proof.
  revert m. induction l as [|s l IH]; intros m; simpl.
  - split; [by left | intros [? | (s & Hin & _)]; [done |]].
    by apply not_elem_of_nil in Hin.
  - rewrite IH, lookup_insert_is_Some. split.
    + intros [[Hk | [_ Hm]] | (s' & Hin & Hk)].
      * right. exists s. split; [apply list_elem_of_here | done].
      * by left.
      * right. exists s'. split; [by apply list_elem_of_further | done].
    + intros [Hm | (s' & Hin & Hk)].
      * left. destruct (decide (system_key s = key)); [by left | by right].
      * apply elem_of_cons in Hin as [-> | Hin]; [by left; left |].
        right. by exists s'.
Qed.

(** A key is in the map exactly when some row has it. *)
Lemma system_map_is_Some (w : World) (key : string) :
  is_Some (build_system_map (systems w) !! key) ↔ has_system w key.
Proof.
  unfold build_system_map, has_system.
  rewrite system_map_fold_is_Some, lookup_empty. split.
  - by intros [[? [=]] | ?].
  - by right.
Qed.

(** Without a row of that key, nothing is registered under it. *)
Lemma unregistered_without_row (w : World) (key : string) :
  ¬ has_system w key → ¬ system_registered w key.
Proof.
  intros Hno (id & Hid & _). apply Hno, system_map_is_Some. by eexists.
Qed.

Lemma member_matches_links (m : OrgMember) (actor : value) (org : Organization) :
  String.eqb (member_organization_id m) (org_id org)
  && str_eq_value (member_user_id m) actor = true ↔ links m actor org.
Proof.
  unfold links. split.
  - intros [H1 H2]%andb_prop. apply String.eqb_eq in H1.
    destruct actor; simpl in H2; try discriminate.
    apply String.eqb_eq in H2. by subst.
  - intros [H1 ->]. simpl. apply andb_true_intro.
    split; by apply String.eqb_eq.
Qed.

Lemma find_member_linked (w : World) (actor : value) (org : Organization) :
  is_Some (List.find (λ m, String.eqb (member_organization_id m) (org_id org)
                           && str_eq_value (member_user_id m) actor)
                     (org_members w))
  ↔ member_linked w actor org.
Proof.
  unfold member_linked. split.
  - intros [m Hm]. apply find_some in Hm as [Hin Hmatch].
    exists m. split; [by apply list_elem_of_In | by apply member_matches_links].
  - intros (m & Hin & Hl).
    destruct (List.find _ _) as [m'|] eqn:Hf; [by eexists |].
    apply list_elem_of_In in Hin.
    apply (find_none _ _ Hf) in Hin.
    apply member_matches_links in Hl. simpl in Hin. congruence.
Qed.

(** Run the function as far as it goes: the world is rebuilt field by
    field at each step, so that the state never nests. *)
Ltac run_step :=
  lazy beta iota zeta delta
    [simulate_start_call subscript mbind M_bind mret M_ret raise print
     organizations_get find_member system_map uuid4 now append_call
     mutate_call append_ai_run write_audit invoked
     set_stdout set_calls set_ai_runs set_audit_logs
     organizations org_members systems calls ai_runs audit_logs stdout
     uuid_draws clock_reads fst snd negb method_get
     set_call_sid set_status set_started_at call_id call_organization_id
     call_system_id call_status call_started_at call_ended_at call_created_by
     call_call_sid].

Ltac run_to_effects Ha Hk Ho Hm Hc Hns :=
  run_step; rewrite Ha; run_step; rewrite Hk; run_step; rewrite Ho; run_step;
  rewrite Hm; run_step; rewrite Hc, Hns; run_step.

Lemma run_passed input actor w s org m cp :
  truthy actor = true →
  dict_lookup input "organization_id" = Some (VStr s) →
  organizations w !! s = Some org →
  List.find (λ m, String.eqb (member_organization_id m) (org_id org)
                  && str_eq_value (member_user_id m) actor)
            (org_members w) = Some m →
  build_system_map (systems w) !! "system-cpid" = Some cp →
  cp ≠ EmptyString →
  (∀ mods, default (VDict []) (dict_lookup input "modulations") = VDict mods →
     ∃ w', simulate_start_call env input actor w
           = (Returned (mkResult true (Some (new_call_id env w)) (soft_errors w mods)), w')
           ∧ started env w w' org cp actor mods)
  ∧ (∀ v, dict_lookup input "modulations" = Some v → (∀ d, v ≠ VDict d) →
     ∃ msg w', simulate_start_call env input actor w = (Raised (AttributeError msg), w')
           ∧ calls w' = calls w ++ [started_call env w org cp actor]
           ∧ ai_runs w' = ai_runs w ∧ audit_logs w' = audit_logs w).
Proof.
  intros Ha Hk Ho Hm Hc Hne.
  destruct w as [orgs mems syss cs ais logs out ud cr];
    cbn [organizations org_members systems] in *.
  assert (Hns : no_system (Some cp) = false) by (by apply String.eqb_neq).
  split.
  - intros mods Hmods.
    unfold started, soft_errors, create_entry, intent_entries, queued_ai_runs,
      ai_system_missing, ai_run_created, record_requested, started_call, new_call_id.
    run_to_effects Ha Hk Ho Hm Hc Hns.
    rewrite Hmods. run_step. rewrite !alter_last. run_step.
    destruct (truthy (default VNone (dict_lookup mods "transcribe")));
      destruct (no_system (build_system_map syss !! "system-ai"));
      destruct (truthy (default VNone (dict_lookup mods "record")));
      run_step; cbn [default from_option id andb];
      (eexists; split; [reflexivity |]);
      cbn [organizations org_members systems calls ai_runs audit_logs length];
      rewrite <- ?app_assoc, ?app_nil_r; repeat split; reflexivity.
  - intros v Hv Hnd.
    unfold started_call, new_call_id.
    run_to_effects Ha Hk Ho Hm Hc Hns.
    rewrite Hv. cbn [default from_option id]. run_step. rewrite !alter_last. run_step.
    destruct v; try (by destruct (Hnd d)); run_step; do 2 eexists;
      (split; [reflexivity |]); cbn [calls ai_runs audit_logs];
      repeat split; reflexivity.
Qed.

Theorem simulate_start_call_spec input actor w :
  run_spec env input actor w
    (simulate_start_call env input actor w).1
    (simulate_start_call env input actor w).2.
Proof.
  destruct w as [orgs mems syss cs ais logs out ud cr].
  set (w := mkWorld orgs mems syss cs ais logs out ud cr).
  destruct (truthy actor) eqn:Ha; cycle 1.
  { replace (simulate_start_call env input actor w)
      with (Returned (failure "AUTH_REQUIRED" "Unauthenticated"), invoked input w).
    - by constructor.
    - unfold w. run_step. rewrite Ha. by run_step. }
  destruct (dict_lookup input "organization_id") as [k|] eqn:Hk; cycle 1.
  { replace (simulate_start_call env input actor w)
      with (@Raised result (KeyError "organization_id"), invoked input w).
    - by constructor.
    - unfold w. run_step. rewrite Ha. run_step. rewrite Hk. by run_step. }
  destruct (hashable k) eqn:Hh; cycle 1.
  { destruct k; try discriminate.
    - replace (simulate_start_call env input actor w)
        with (@Raised result (TypeError "unhashable type: 'list'"), invoked input w).
      + by eapply run_unhashable.
      + unfold w. run_step. rewrite Ha. run_step. rewrite Hk. by run_step.
    - replace (simulate_start_call env input actor w)
        with (@Raised result (TypeError "unhashable type: 'dict'"), invoked input w).
      + by eapply run_unhashable.
      + unfold w. run_step. rewrite Ha. run_step. rewrite Hk. by run_step. }
  assert (Hnf : (∀ s, k = VStr s → orgs !! s = None) →
    run_spec env input actor w
      (simulate_start_call env input actor w).1
      (simulate_start_call env input actor w).2).
  { intros Hnone.
    replace (simulate_start_call env input actor w)
      with (Returned (failure "CALL_START_ORG_NOT_FOUND" "Organization not found"),
            invoked input w).
    - by eapply run_org_not_found.
    - unfold w. run_step. rewrite Ha. run_step. rewrite Hk. run_step.
      destruct k; try discriminate; try reflexivity.
      by rewrite (Hnone s eq_refl). }
  destruct k as [| | |s| |]; try discriminate;
    try (by apply Hnf; intros ? [=]).
  destruct (orgs !! s) as [org|] eqn:Ho;
    [clear Hnf | apply Hnf; intros ? ?; by simplify_eq].
  assert (Hfound : organization_found w input org) by (by exists s).
  destruct (List.find (λ m, String.eqb (member_organization_id m) (org_id org)
                            && str_eq_value (member_user_id m) actor)
                      mems) as [m|] eqn:Hm; cycle 1.
  { replace (simulate_start_call env input actor w)
      with (Returned (failure "AUTH_ORG_MISMATCH" "Actor not authorized for organization"),
            invoked input w).
    - eapply run_org_mismatch; [done.. |].
      intros Hl%find_member_linked. unfold w in Hl; simpl in Hl.
      rewrite Hm in Hl. by destruct Hl.
    - unfold w. run_step. rewrite Ha. run_step. rewrite Hk. run_step. rewrite Ho.
      run_step. rewrite Hm. by run_step. }
  assert (Hlinked : member_linked w actor org).
  { apply find_member_linked. unfold w; simpl. rewrite Hm. by eexists. }
  destruct (no_system (build_system_map syss !! "system-cpid")) eqn:Hns.
  { replace (simulate_start_call env input actor w)
      with (Returned (failure "CALL_START_SYS_MISSING" "Control system not registered"),
            invoked input w).
    - eapply run_sys_missing; [done.. |].
      intros Hr%no_system_resolves. unfold w in Hr; simpl in Hr. congruence.
    - unfold w. run_step. rewrite Ha. run_step. rewrite Hk. run_step. rewrite Ho.
      run_step. rewrite Hm. run_step. rewrite Hns. by run_step. }
  apply (no_system_resolves w) in Hns as (cp & Hcp & Hne).
  destruct (run_passed input actor w s org m cp Ha Hk Ho Hm Hcp Hne) as [Hok Hraise].
  assert (Hres : system_resolves w "system-cpid" cp) by done.
  destruct (dict_lookup input "modulations") as [v|] eqn:Hv.
  - destruct v as [| | | | |mods];
      try (edestruct (Hraise _ eq_refl) as (msg & w' & -> & Hc & Hai & Hlog);
           [by intros ? | by eapply run_attribute_error]).
    destruct (Hok mods eq_refl) as (w' & -> & Hst).
    eapply run_started; [done.. | by rewrite Hv | done].
  - destruct (Hok [] eq_refl) as (w' & -> & Hst).
    eapply run_started; [done.. | by rewrite Hv | done].
Qed.


Lemma run_returned input actor w r w' :
  simulate_start_call env input actor w = (Returned r, w') →
  run_spec env input actor w (Returned r) w'.
Proof.
  intros Hrun. pose proof (simulate_start_call_spec input actor w) as Hs.
  by rewrite Hrun in Hs.
Qed.

Lemma organization_found_unique w input org org' :
  organization_found w input org → organization_found w input org' → org = org'.
Proof. intros (s & Hk & Ho) (s' & Hk' & Ho'). congruence. Qed.

(** A run that passes the four checks, with a dictionary (or nothing) under
    ['modulations'], starts the call. *)
Lemma run_of_passing input actor w mods :
  preconditions_pass w input actor →
  default (VDict []) (dict_lookup input "modulations") = VDict mods →
  ∃ org cp w',
    organization_found w input org
    ∧ system_resolves w "system-cpid" cp
    ∧ simulate_start_call env input actor w
      = (Returned (mkResult true (Some (new_call_id env w)) (soft_errors w mods)), w')
    ∧ started env w w' org cp actor mods.
Proof.
  intros (Ha & (org & Hfound) & (org' & Hfound' & Hlinked) & (cp & Hcp)) Hmods.
  rewrite <- (organization_found_unique _ _ _ _ Hfound Hfound') in Hlinked.
  apply find_member_linked in Hlinked as [m Hm].
  destruct Hfound as (s & Hk & Ho). destruct Hcp as [Hcp Hne].
  destruct (run_passed input actor w s org m cp Ha Hk Ho Hm Hcp Hne) as [Hok _].
  destruct (Hok mods Hmods) as (w' & Hrun & Hst).
  exists org, cp, w'. split; [by exists s |].
  split; [by split |]. split; [exact Hrun | exact Hst].
Qed.

End SimulatorFacts.

(** ** Refused calls *)

Section Refusals.

Variable env : Env.

(** C5.  For every input and every initial state, if the actor is empty or
    missing ([None], the empty string, or any other value that [not actor]
    accepts), the call returns [success = false] with the single error code
    [AUTH_REQUIRED] and the [calls] table is as it was. *)
Theorem missing_actor_auth_required (input : dict) (actor : value) (w : World) :
  truthy actor = false →
  ∃ r w', simulate_start_call env input actor w = (Returned r, w')
          ∧ success r = false
          ∧ (errors r).*1 = ["AUTH_REQUIRED"]
          ∧ calls w' = calls w.
Proof.
  intros Ha.
  pose proof (simulate_start_call_spec env input actor w) as Hs.
  destruct (simulate_start_call env input actor w) as [o w'].
  simpl in Hs. inversion Hs; subst; try congruence.
  eexists _, _. split; [reflexivity |]. by repeat split.
Qed.

(** C10.  Whenever the call returns [success = false], the tables [calls],
    [ai_runs] and [audit_logs] are what they were before the call. *)
Theorem failure_leaves_tables (input : dict) (actor : value) (w w' : World)
    (r : result) :
  simulate_start_call env input actor w = (Returned r, w') →
  success r = false →
  calls w' = calls w ∧ ai_runs w' = ai_runs w ∧ audit_logs w' = audit_logs w.
Proof.
  intros Hrun%run_returned Hfail.
  inversion Hrun; subst; try done.
Qed.


End Refusals.

Lemma missing_actor_auth_required_witness :
  ∃ r w',
    simulate_start_call sample_env example_input VNone initial_world
    = (Returned r, w')
    ∧ success r = false
    ∧ (errors r).*1 = ["AUTH_REQUIRED"]
    ∧ calls w' = calls initial_world.
Proof.
  apply (missing_actor_auth_required sample_env example_input VNone initial_world).
  reflexivity.
Defined.

Lemma failure_leaves_tables_witness :
  let run := simulate_start_call sample_env
               [("organization_id", VStr "org-2")] (VStr "user-1") initial_world in
  calls run.2 = calls initial_world
  ∧ ai_runs run.2 = ai_runs initial_world
  ∧ audit_logs run.2 = audit_logs initial_world.
Proof.
  apply (failure_leaves_tables sample_env [("organization_id", VStr "org-2")]
           (VStr "user-1") initial_world _
           (failure "CALL_START_ORG_NOT_FOUND" "Organization not found"));
    reflexivity.
Defined.


(** ** Started calls *)

Section StartedCalls.

Variable env : Env.

Lemma setup_passes (w : World) (input : dict) (oid uid : string) :
  has_organization w oid → has_member w uid oid →
  system_registered w "system-cpid" →
  uid ≠ EmptyString →
  dict_lookup input "organization_id" = Some (VStr oid) →
  preconditions_pass w input (VStr uid).
Proof.
  intros (org & Ho & Hid) (m & Hin & Hmo & Hmu) Hsys Hne Hk.
  assert (Hfound : organization_found w input org) by (by exists oid).
  repeat split.
  - unfold actor_present. simpl. by apply negb_true_iff, String.eqb_neq.
  - by exists org.
  - exists org. split; [done |]. exists m. split; [done |].
    split; congruence.
  - done.
Qed.

(** C1 (as amended).  For every initial state that contains organization
    ['org-1'], an OrgMember linking ['user-1'] to it, and a system
    registered under ['system-cpid'] (the key resolves to a non-empty id),
    the call with input [{organization_id: 'org-1', modulations: {}}] and
    actor ['user-1'] returns [success = true], appends exactly one Call row,
    in status ['in-progress'] and with a [call_sid], and appends exactly one
    AuditLog entry, of action ['create']. *)
Theorem start_call_plain (w : World) :
  has_organization w "org-1" →
  has_member w "user-1" "org-1" →
  system_registered w "system-cpid" →
  ∃ r w' row entry,
    simulate_start_call env plain_input (VStr "user-1") w = (Returned r, w')
    ∧ success r = true
    ∧ calls w' = calls w ++ [row]
    ∧ call_status row = "in-progress"
    ∧ is_Some (call_call_sid row)
    ∧ audit_logs w' = audit_logs w ++ [entry]
    ∧ audit_action entry = "create".
Proof.
  intros Horg Hmem Hsys.
  destruct (run_of_passing env plain_input (VStr "user-1") w [])
    as (org & cp & w' & _ & _ & Hrun & Hst).
  { by apply (setup_passes w plain_input "org-1" "user-1"). }
  { reflexivity. }
  destruct Hst as (_ & _ & _ & Hcalls & _ & Hlogs).
  eexists _, w', _, _. split; [exact Hrun |].
  split; [done |]. split; [exact Hcalls |].
  split; [done |]. split; [by eexists |].
  split; [exact Hlogs | done].
Qed.

(** C6.  Given organization ['org-1'] with member ['user-1'], systems
    registered under ['system-cpid'] and ['system-ai'], and an input for
    ['org-1'] whose modulations are [{transcribe: true}], the call by
    ['user-1'] appends exactly one AiRun row, of status ['queued'], whose
    [call_id] is the id of the Call row the same call appended. *)
Theorem transcribe_queues_ai_run (w : World) (input : dict) :
  has_organization w "org-1" →
  has_member w "user-1" "org-1" →
  system_registered w "system-cpid" →
  system_registered w "system-ai" →
  dict_lookup input "organization_id" = Some (VStr "org-1") →
  dict_lookup input "modulations" = Some (VDict [("transcribe", VBool true)]) →
  ∃ r w' row run,
    simulate_start_call env input (VStr "user-1") w = (Returned r, w')
    ∧ success r = true
    ∧ calls w' = calls w ++ [row]
    ∧ ai_runs w' = ai_runs w ++ [run]
    ∧ ai_status run = "queued"
    ∧ ai_call_id run = call_id row.
Proof.
  intros Horg Hmem Hsys Hai Hk Hmods.
  destruct (run_of_passing env input (VStr "user-1") w [("transcribe", VBool true)])
    as (org & cp & w' & _ & _ & Hrun & Hst).
  { by apply (setup_passes w input "org-1" "user-1"). }
  { by rewrite Hmods. }
  destruct Hst as (_ & _ & _ & Hcalls & Hruns & _).
  apply no_system_resolves in Hai.
  unfold queued_ai_runs, ai_run_created in Hruns.
  rewrite Hai in Hruns. simpl in Hruns.
  eexists _, w', _, _. split; [exact Hrun |].
  split; [done |]. split; [exact Hcalls |]. split; [exact Hruns |]. done.
Qed.

(** C7.  For every input whose modulations ask for a transcript and that
    passes the four hard preconditions, if no system is registered under
    ['system-ai'] (in particular when no System row has that key, see
    [unregistered_without_row]) the call still returns [success = true],
    its error list contains the code [AI_SYSTEM_MISSING], and no AiRun row
    is appended. *)
Theorem transcribe_without_ai_system (w : World) (input : dict) (actor : value)
    (mods : dict) :
  preconditions_pass w input actor →
  dict_lookup input "modulations" = Some (VDict mods) →
  truthy (default VNone (dict_lookup mods "transcribe")) = true →
  ¬ system_registered w "system-ai" →
  ∃ r w',
    simulate_start_call env input actor w = (Returned r, w')
    ∧ success r = true
    ∧ "AI_SYSTEM_MISSING" ∈ (errors r).*1
    ∧ ai_runs w' = ai_runs w.
Proof.
  intros Hpass Hmods Ht Hnai.
  destruct (run_of_passing env input actor w mods Hpass)
    as (org & cp & w' & _ & _ & Hrun & Hst).
  { by rewrite Hmods. }
  destruct Hst as (_ & _ & _ & _ & Hruns & _).
  assert (Hno : no_system (build_system_map (systems w) !! "system-ai") = true).
  { destruct (no_system _) eqn:E; [done |].
    by apply no_system_resolves in E. }
  unfold queued_ai_runs, ai_run_created in Hruns.
  rewrite Ht, Hno in Hruns. simpl in Hruns. rewrite app_nil_r in Hruns.
  eexists _, w'. split; [exact Hrun |]. split; [done |]. split; [| done].
  unfold soft_errors, ai_system_missing. rewrite Ht, Hno. simpl.
  apply list_elem_of_here.
Qed.

(** C8.  For every input whose modulations ask for a recording and that
    passes the four hard preconditions, the call appends to the audit log
    an entry of action ['intent:recording_requested'] and, right after it
    and last, the ['create'] entry; both are about the ['calls'] resource.
    Apart from these two entries, the one Call row and the AiRun row that a
    transcript request queues, no table gets a row: there is no Recording
    row anywhere. *)
Theorem record_writes_intent_first (w : World) (input : dict) (actor : value)
    (mods : dict) :
  preconditions_pass w input actor →
  dict_lookup input "modulations" = Some (VDict mods) →
  truthy (default VNone (dict_lookup mods "record")) = true →
  ∃ r w' row intent create,
    simulate_start_call env input actor w = (Returned r, w')
    ∧ audit_logs w' = audit_logs w ++ [intent; create]
    ∧ audit_action intent = "intent:recording_requested"
    ∧ audit_action create = "create"
    ∧ audit_resource_type intent = "calls"
    ∧ audit_resource_type create = "calls"
    ∧ calls w' = calls w ++ [row]
    ∧ ai_runs w' = ai_runs w ++ queued_ai_runs env w mods
    ∧ organizations w' = organizations w
    ∧ org_members w' = org_members w
    ∧ systems w' = systems w.
Proof.
  intros Hpass Hmods Hrec.
  destruct (run_of_passing env input actor w mods Hpass)
    as (org & cp & w' & _ & _ & Hrun & Hst).
  { by rewrite Hmods. }
  destruct Hst as (Horgs & Hmems & Hsyss & Hcalls & Hruns & Hlogs).
  unfold intent_entries, record_requested in Hlogs. rewrite Hrec in Hlogs.
  eexists _, w', _, _, _. split; [exact Hrun |].
  split; [exact Hlogs |]. repeat split; try done.
Qed.

End StartedCalls.

(** ** The audit trail, and exceptions *)

Section AuditAndExceptions.

Variable env : Env.

Lemma appended_app {A} (l new : list A) : appended l (l ++ new) = new.
Proof. unfold appended. by rewrite drop_app_length. Qed.

(** C2 (as amended).  For every call that returns [success = true]: exactly
    one Call row is appended, in status ['in-progress']; the entries appended
    to the audit log are the intent records, if any, and then one ['create']
    entry, with [before] null and the Call row as its [after] snapshot; that
    entry is the one entry recording the new Call (its creation and its
    move to ['in-progress'] together); every appended entry is about the
    ['calls'] resource and names the new Call, so an AiRun row, when one is
    created, has no entry of its own. *)
Theorem started_call_audited_once (input : dict) (actor : value) (w w' : World)
    (r : result) :
  simulate_start_call env input actor w = (Returned r, w') →
  success r = true →
  ∃ row intents create,
    appended (calls w) (calls w') = [row]
    ∧ call_status row = "in-progress"
    ∧ appended (audit_logs w) (audit_logs w') = intents ++ [create]
    ∧ Forall (λ e, is_intent e = true) intents
    ∧ audit_action create = "create"
    ∧ audit_before create = None
    ∧ (∃ config, audit_after create = CallSnapshot row config)
    ∧ transition_entries (appended (audit_logs w) (audit_logs w')) (call_id row)
      = [create]
    ∧ Forall (λ e, audit_resource_type e = "calls"
                   ∧ audit_resource_id e = call_id row)
             (appended (audit_logs w) (audit_logs w')).
Proof.
  intros Hrun%run_returned Hok.
  inversion Hrun as [| | | | | | | org cp mods w'' Ha Hfound Hl Hcp Hmods Hst];
    subst; try discriminate.
  destruct Hst as (_ & _ & _ & Hcalls & _ & Hlogs).
  rewrite Hcalls, Hlogs, !appended_app.
  exists (started_call env w org cp actor), (intent_entries env w org cp actor mods),
    (create_entry env w org cp actor mods).
  unfold intent_entries, transition_entries.
  destruct (record_requested mods); cbn;
    rewrite ?String.eqb_refl; cbn;
    repeat split; eauto; repeat constructor.
Qed.

(** C3 (as amended).  For every actor and every input dictionary that has
    an ['organization_id'] entry with a hashable value and whose
    ['modulations'] entry, when there is one, is a dictionary, the call
    returns a result and raises nothing; a failure is then one
    (code, message) pair in the error list of that result. *)
Theorem well_formed_input_returns (input : dict) (actor : value) (w : World) :
  (∃ k, dict_lookup input "organization_id" = Some k ∧ hashable k = true) →
  (∃ mods, default (VDict []) (dict_lookup input "modulations") = VDict mods) →
  ∃ r w',
    simulate_start_call env input actor w = (Returned r, w')
    ∧ (success r = false → ∃ code msg, errors r = [(code, msg)]).
Proof.
  intros (k & Hk & Hh) (mods & Hmods).
  pose proof (simulate_start_call_spec env input actor w) as Hs.
  destruct (simulate_start_call env input actor w) as [o w'].
  simpl in Hs.
  inversion Hs; subst;
    try (eexists _, _; split; [reflexivity |]; intros; try discriminate;
         by do 2 eexists);
    try congruence.
  match goal with
  | Hv : dict_lookup input "modulations" = Some ?v, Hnd : ∀ d, ?v ≠ VDict d |- _ =>
      rewrite Hv in Hmods; simpl in Hmods; by destruct (Hnd mods)
  end.
Qed.

End AuditAndExceptions.

(** C1 as worded does not hold: the tables hold organization ['org-1'], the
    member ['user-1'] and a System row of key ['system-cpid'], yet the call
    is refused, because the id of that row is empty. *)
Lemma blank_system_id_refused :
  has_organization blank_id_world "org-1"
  ∧ has_member blank_id_world "user-1" "org-1"
  ∧ has_system blank_id_world "system-cpid"
  ∧ simulate_start_call sample_env plain_input (VStr "user-1") blank_id_world
    = (Returned (failure "CALL_START_SYS_MISSING" "Control system not registered"),
       invoked plain_input blank_id_world).
Proof.
  split; [| split; [| split]].
  - eexists. split; [vm_compute; reflexivity | reflexivity].
  - eexists. split; [apply list_elem_of_here | done].
  - eexists. split; [apply list_elem_of_here | done].
  - vm_compute. reflexivity.
Qed.

(** C2 as worded does not hold: the example call creates an AiRun row, and the
    audit log gets no entry that names it. *)
Lemma ai_run_creation_not_audited :
  let run := simulate_start_call sample_env transcribe_input (VStr "user-1")
               initial_world in
  (∃ r, run.1 = Returned r ∧ success r = true)
  ∧ length (appended (ai_runs initial_world) (ai_runs run.2)) = 1
  ∧ ¬ every_change_audited initial_world run.2.
Proof.
  split; [eexists; split; vm_compute; reflexivity | split; [vm_compute; reflexivity |]].
  intros [_ Hai].
  specialize (Hai (mkAiRun "22222222-3333-4444-5555-666666666666"
                     "00000000-1111-2222-3333-444444444444" "sys-ai"
                     "assemblyai-v1" "queued" None None None)).
  assert (Hin : mkAiRun "22222222-3333-4444-5555-666666666666"
                  "00000000-1111-2222-3333-444444444444" "sys-ai"
                  "assemblyai-v1" "queued" None None None
                ∈ appended (ai_runs initial_world)
                    (ai_runs (simulate_start_call sample_env transcribe_input
                                (VStr "user-1") initial_world).2)).
  { vm_compute. apply list_elem_of_here. }
  apply Hai in Hin. vm_compute in Hin. discriminate.
Qed.

(** C3 as worded does not hold: an input dictionary without ['organization_id']
    makes the call raise [KeyError]. *)
Lemma missing_organization_id_raises :
  simulate_start_call sample_env [] (VStr "user-1") initial_world
  = (Raised (KeyError "organization_id"), invoked [] initial_world).
Proof. vm_compute. reflexivity. Qed.

(** ** The module's own tables as instances *)

Lemma initial_world_has_org : has_organization initial_world "org-1".
Proof. eexists. split; vm_compute; reflexivity. Qed.

Lemma initial_world_has_member : has_member initial_world "user-1" "org-1".
Proof. eexists. split; [apply list_elem_of_here | split; reflexivity]. Qed.

Lemma initial_world_registered (key : string) :
  key = "system-cpid" ∨ key = "system-ai" → system_registered initial_world key.
Proof. intros [-> | ->]; eexists; (split; [vm_compute; reflexivity | discriminate]). Qed.

Lemma start_call_plain_witness :
  ∃ r w' row entry,
    simulate_start_call sample_env plain_input (VStr "user-1") initial_world
    = (Returned r, w')
    ∧ success r = true
    ∧ calls w' = calls initial_world ++ [row]
    ∧ call_status row = "in-progress"
    ∧ is_Some (call_call_sid row)
    ∧ audit_logs w' = audit_logs initial_world ++ [entry]
    ∧ audit_action entry = "create".
Proof.
  apply (start_call_plain sample_env initial_world).
  - eexists. split; vm_compute; reflexivity.
  - eexists. split; [apply list_elem_of_here | split; reflexivity].
  - eexists. split; [vm_compute; reflexivity | discriminate].
Defined.

Lemma transcribe_queues_ai_run_witness :
  ∃ r w' row run,
    simulate_start_call sample_env transcribe_input (VStr "user-1") initial_world
    = (Returned r, w')
    ∧ success r = true
    ∧ calls w' = calls initial_world ++ [row]
    ∧ ai_runs w' = ai_runs initial_world ++ [run]
    ∧ ai_status run = "queued"
    ∧ ai_call_id run = call_id row.
Proof.
  apply (transcribe_queues_ai_run sample_env initial_world transcribe_input).
  - eexists. split; vm_compute; reflexivity.
  - eexists. split; [apply list_elem_of_here | split; reflexivity].
  - eexists. split; [vm_compute; reflexivity | discriminate].
  - eexists. split; [vm_compute; reflexivity | discriminate].
  - reflexivity.
  - reflexivity.
Defined.

Lemma no_ai_world_passes :
  preconditions_pass no_ai_world transcribe_input (VStr "user-1").
Proof.
  apply (setup_passes no_ai_world transcribe_input "org-1" "user-1").
  - eexists. split; vm_compute; reflexivity.
  - eexists. split; [apply list_elem_of_here | split; reflexivity].
  - eexists. split; [vm_compute; reflexivity | discriminate].
  - discriminate.
  - reflexivity.
Defined.

Lemma transcribe_without_ai_system_witness :
  ∃ r w',
    simulate_start_call sample_env transcribe_input (VStr "user-1") no_ai_world
    = (Returned r, w')
    ∧ success r = true
    ∧ "AI_SYSTEM_MISSING" ∈ (errors r).*1
    ∧ ai_runs w' = ai_runs no_ai_world.
Proof.
  apply (transcribe_without_ai_system sample_env no_ai_world transcribe_input
           (VStr "user-1") [("transcribe", VBool true)]).
  - exact no_ai_world_passes.
  - reflexivity.
  - reflexivity.
  - intros (id & Hid & _). vm_compute in Hid. discriminate.
Defined.

Lemma initial_world_passes_record :
  preconditions_pass initial_world record_input (VStr "user-1").
Proof.
  apply (setup_passes initial_world record_input "org-1" "user-1").
  - eexists. split; vm_compute; reflexivity.
  - eexists. split; [apply list_elem_of_here | split; reflexivity].
  - eexists. split; [vm_compute; reflexivity | discriminate].
  - discriminate.
  - reflexivity.
Defined.

Lemma record_writes_intent_first_witness :
  ∃ r w' row intent create,
    simulate_start_call sample_env record_input (VStr "user-1") initial_world
    = (Returned r, w')
    ∧ audit_logs w' = audit_logs initial_world ++ [intent; create]
    ∧ audit_action intent = "intent:recording_requested"
    ∧ audit_action create = "create"
    ∧ audit_resource_type intent = "calls"
    ∧ audit_resource_type create = "calls"
    ∧ calls w' = calls initial_world ++ [row]
    ∧ ai_runs w' = ai_runs initial_world
                   ++ queued_ai_runs sample_env initial_world [("record", VBool true)]
    ∧ organizations w' = organizations initial_world
    ∧ org_members w' = org_members initial_world
    ∧ systems w' = systems initial_world.
Proof.
  apply (record_writes_intent_first sample_env initial_world record_input
           (VStr "user-1") [("record", VBool true)]).
  - exact initial_world_passes_record.
  - reflexivity.
  - reflexivity.
Defined.

Lemma started_call_audited_once_witness :
  let run := simulate_start_call sample_env example_input (VStr "user-1")
               initial_world in
  ∃ row intents create,
    appended (calls initial_world) (calls run.2) = [row]
    ∧ call_status row = "in-progress"
    ∧ appended (audit_logs initial_world) (audit_logs run.2) = intents ++ [create]
    ∧ Forall (λ e, is_intent e = true) intents
    ∧ audit_action create = "create"
    ∧ audit_before create = None
    ∧ (∃ config, audit_after create = CallSnapshot row config)
    ∧ transition_entries (appended (audit_logs initial_world) (audit_logs run.2))
        (call_id row) = [create]
    ∧ Forall (λ e, audit_resource_type e = "calls"
                   ∧ audit_resource_id e = call_id row)
             (appended (audit_logs initial_world) (audit_logs run.2)).
Proof.
  apply (started_call_audited_once sample_env example_input (VStr "user-1")
           initial_world _
           (mkResult true (Some "00000000-1111-2222-3333-444444444444") [])).
  - vm_compute. reflexivity.
  - reflexivity.
Defined.

Lemma well_formed_input_returns_witness :
  ∃ r w',
    simulate_start_call sample_env example_input (VStr "user-2") initial_world
    = (Returned r, w')
    ∧ (success r = false → ∃ code msg, errors r = [(code, msg)]).
Proof.
  apply (well_formed_input_returns sample_env example_input (VStr "user-2")
           initial_world).
  - eexists. split; reflexivity.
  - eexists. reflexivity.
Defined.

(** The two other ways to make the call raise: an ['organization_id'] that
    cannot be hashed, and a ['modulations'] entry that is not a dictionary.
    In the second the Call row is already in the table, and no audit entry
    follows. *)
Example unhashable_organization_id_raises :
  (simulate_start_call sample_env [("organization_id", VList [])] (VStr "user-1")
     initial_world).1
  = Raised (TypeError "unhashable type: 'list'").
Proof. vm_compute. reflexivity. Qed.

Example null_modulations_raises :
  let run := simulate_start_call sample_env
               [("organization_id", VStr "org-1"); ("modulations", VNone)]
               (VStr "user-1") initial_world in
  run.1 = Raised (AttributeError "'NoneType' object has no attribute 'get'")
  ∧ length (calls run.2) = 1
  ∧ audit_logs run.2 = [].
Proof. vm_compute. repeat split; reflexivity. Qed.

(** The [__main__] block: both modulations on, everything registered. *)
Example main_block :
  let run := simulate_start_call_default sample_env example_input initial_world in
  run.1 = Returned (mkResult true (Some "00000000-1111-2222-3333-444444444444") [])
  ∧ length (calls run.2) = 1
  ∧ length (ai_runs run.2) = 1
  ∧ (audit_action <$> audit_logs run.2) = ["intent:recording_requested"; "create"].
Proof. vm_compute. repeat split; reflexivity. Qed.

(** * Properties of the permission-matrix builder *)

Module PermissionMatrixFacts.
Import PermissionMatrix.

Lemma filter_present_in (schema_cols : gset string) (cols : list value)
    (filtered : list string) :
  filter_present schema_cols cols = Returned filtered →
  ∀ c, c ∈ filtered → c ∈ schema_cols.
Proof.
  revert filtered. induction cols as [|v cols IH]; intros filtered Hrun c Hc.
  - injection Hrun as <-. by apply not_elem_of_nil in Hc.
  - destruct v as [| | |s| |]; simpl in Hrun; try discriminate; eauto.
    destruct (filter_present schema_cols cols) as [rest|] eqn:Hrest;
      simpl in Hrun; [| discriminate].
    injection Hrun as <-.
    case_bool_decide as Hs; [| by eauto].
    apply elem_of_cons in Hc as [-> | Hc]; [done | by eauto].
Qed.

Lemma filtered_op_in (schema_cols : gset string) (perms : value) (op : string)
    (filtered : list string) :
  filtered_op schema_cols perms op = Returned filtered →
  ∀ c, c ∈ filtered → c ∈ schema_cols.
Proof.
  unfold filtered_op. intros Hrun.
  destruct (perms_get perms op) as [cols|]; simpl in Hrun; [| discriminate].
  destruct (iterate cols) as [elems|]; simpl in Hrun; [| discriminate].
  by apply (filter_present_in _ elems).
Qed.

Lemma table_entry_ok (tables : gmap string (list string)) (tbl : string)
    (cols : list string) (perms : value) (e : entry) :
  tables !! tbl = Some cols →
  table_entry (list_to_set cols) perms = Returned e →
  entry_ok tables tbl e.
Proof.
  intros Htbl Hrun. unfold table_entry in Hrun.
  destruct (filtered_op _ perms "GET") as [get|] eqn:Hget; simpl in Hrun; [| discriminate].
  destruct (filtered_op _ perms "POST") as [post|] eqn:Hpost; simpl in Hrun; [| discriminate].
  destruct (filtered_op _ perms "PUT") as [put|] eqn:Hput; simpl in Hrun; [| discriminate].
  destruct (filtered_op _ perms "DELETE") as [del|] eqn:Hdel; simpl in Hrun; [| discriminate].
  injection Hrun as <-.
  assert (Hin : ∀ op filtered,
            filtered_op (list_to_set cols) perms op = Returned filtered →
            ∀ c, c ∈ filtered → in_schema tables tbl c).
  { intros op filtered Hop c Hc. exists cols. split; [done |].
    apply (filtered_op_in _ _ _ _ Hop) in Hc. by apply elem_of_list_to_set in Hc. }
  intros op f Hf.
  repeat (apply elem_of_cons in Hf as [[= -> ->] | Hf]; [by eauto |]).
  by apply not_elem_of_nil in Hf.
Qed.

Lemma dict_set_elem {V} (k k' : string) (v v' : V) (d : list (string * V)) :
  (k', v') ∈ dict_set k v d → (k', v') = (k, v) ∨ (k', v') ∈ d.
Proof.
  induction d as [|[k0 v0] d IH]; simpl.
  - intros Hin%list_elem_of_singleton. by left.
  - destruct (String.eqb k0 k).
    + intros [-> | Hin]%elem_of_cons; [by left |].
      right. by apply list_elem_of_further.
    + intros [-> | Hin]%elem_of_cons; [right; apply list_elem_of_here |].
      destruct (IH Hin) as [-> | Hd]; [by left |].
      right. by apply list_elem_of_further.
Qed.

Lemma matrix_ok_set (tables : gmap string (list string)) (tbl : string)
    (e : entry) (updated : list (string * entry)) :
  entry_ok tables tbl e → matrix_ok tables updated →
  matrix_ok tables (dict_set tbl e updated).
Proof.
  intros He Hok tbl' e' [[= -> ->] | Hin]%dict_set_elem; [done | by eapply Hok].
Qed.

Lemma build_updated_ok (tables : gmap string (list string)) (tool : dict)
    (updated updated' : list (string * entry)) :
  matrix_ok tables updated →
  build_updated tables tool updated = Returned updated' →
  matrix_ok tables updated'.
Proof.
  revert updated. induction tool as [|[tbl perms] tool IH]; intros updated Hok Hrun.
  - by injection Hrun as <-.
  - simpl in Hrun. destruct (tables !! tbl) as [cols|] eqn:Htbl; [| by eauto].
    destruct (table_entry (list_to_set cols) perms) as [e|] eqn:He;
      simpl in Hrun; [| discriminate].
    apply (IH _ (matrix_ok_set _ _ _ _ (table_entry_ok _ _ _ _ _ Htbl He) Hok) Hrun).
Qed.

Lemma ensure_required_ok (tables : gmap string (list string)) (required : string)
    (updated : list (string * entry)) :
  matrix_ok tables updated → matrix_ok tables (ensure_required tables required updated).
Proof.
  intros Hok. unfold ensure_required.
  destruct (tables !! required) as [cols|] eqn:Htbl; [| done].
  destruct (dict_has required updated); [done |].
  apply matrix_ok_set; [| done].
  intros op f Hf.
  repeat (apply elem_of_cons in Hf as [[= -> ->] | Hf];
          [first [done | intros c Hc; by apply not_elem_of_nil in Hc
                 | intros c Hc; by exists cols] |]).
  by apply not_elem_of_nil in Hf.
Qed.

Lemma flat_map_nil {A B} (f : A → list B) (l : list A) :
  (∀ x, x ∈ l → f x = []) → flat_map f l = [].
Proof.
  induction l as [|x l IH]; intros Hall; simpl; [done |].
  rewrite (Hall x), IH; [done | |]; [| apply list_elem_of_here].
  intros y Hy. apply Hall. by apply list_elem_of_further.
Qed.

Lemma validate_ok (tables : gmap string (list string))
    (updated : list (string * entry)) :
  matrix_ok tables updated → validate tables updated = [].
Proof.
  intros Hok. apply flat_map_nil. intros [tbl e] He.
  apply flat_map_nil. intros [op f] Hf.
  destruct (String.eqb op "allowed_modules") eqn:Hop; [done |].
  pose proof (Hok tbl e He op f Hf) as Hentry.
  destruct f as [cols | m].
  - apply flat_map_nil. intros c Hc.
    destruct (Hentry c Hc) as (schema_cols & -> & Hin). simpl.
    by rewrite bool_decide_eq_true_2.
  - subst op. discriminate.
Qed.

Section Emitted.

Variable parse_tables : string → gmap string (list string).

(** C9.  For every permission table and schema text, whatever the script
    emits lists, under the operations of each table of the matrix, only
    columns that the parsed schema has in that table; the [errors] list of
    the validation section is therefore empty. *)
Theorem matrix_columns_in_schema (tool : value) (schema_sql : string) (out : output) :
  build_permission_matrix parse_tables tool schema_sql = Returned out →
  (∀ tbl op cols c,
     listed out tbl op cols → c ∈ cols → in_schema (parse_tables schema_sql) tbl c)
  ∧ errors out = [].
Proof.
  unfold build_permission_matrix. intros Hrun.
  destruct (items tool) as [its|]; simpl in Hrun; [| discriminate].
  destruct (build_updated _ its []) as [updated|] eqn:Hupd; simpl in Hrun; [| discriminate].
  injection Hrun as <-.
  assert (Hok : matrix_ok (parse_tables schema_sql)
                  (ensure_required (parse_tables schema_sql) "ai_runs"
                     (ensure_required (parse_tables schema_sql) "calls" updated))).
  { do 2 apply ensure_required_ok.
    apply (build_updated_ok _ its [] updated); [| done].
    intros tbl e He. by apply not_elem_of_nil in He. }
  split.
  - intros tbl op cols c (e & He & Hcols) Hc.
    by apply (Hok tbl e He op (Columns cols) Hcols c).
  - by apply validate_ok.
Qed.

End Emitted.

Lemma matrix_columns_in_schema_witness :
  (∀ tbl op cols c,
     listed sample_output tbl op cols → c ∈ cols → in_schema sample_tables tbl c)
  ∧ errors sample_output = [].
Proof.
  apply (matrix_columns_in_schema (λ _, sample_tables) sample_tool EmptyString).
  vm_compute. reflexivity.
Defined.

End PermissionMatrixFacts.

(** * Further properties of the simulator *)

Section MoreOnTheSimulator.

Variable env : Env.

Lemma run_outcome (input : dict) (actor : value) (w : World) :
  ∃ o w', simulate_start_call env input actor w = (o, w')
          ∧ run_spec env input actor w o w'.
Proof.
  pose proof (simulate_start_call_spec env input actor w) as Hs.
  destruct (simulate_start_call env input actor w) as [o w']. by exists o, w'.
Qed.

Lemma passing_facts (w : World) (input : dict) (actor : value) (org : Organization) :
  truthy actor = true → organization_found w input org →
  member_linked w actor org → system_registered w "system-cpid" →
  preconditions_pass w input actor.
Proof.
  intros Ha Hfound Hl Hsys. repeat split; [done | by exists org | | done].
  by exists org.
Qed.

Lemma not_found_no_organization (w : World) (input : dict) (k : value) :
  dict_lookup input "organization_id" = Some k →
  (∀ s, k = VStr s → organizations w !! s = None) →
  ¬ organization_exists w input.
Proof.
  intros Hk Hnone (org & s & Hk' & Ho). rewrite Hk in Hk'. injection Hk' as ->.
  rewrite (Hnone s eq_refl) in Ho. discriminate.
Qed.

Lemma not_linked_no_member (w : World) (input : dict) (actor : value)
    (org : Organization) :
  organization_found w input org → ¬ member_linked w actor org →
  ¬ member_exists w input actor.
Proof.
  intros Hfound Hnl (org' & Hfound' & Hl).
  by rewrite <- (organization_found_unique _ _ _ _ Hfound Hfound') in Hl.
Qed.

(** X1.  The converse of the ordering of the checks: when some precondition
    fails, and the input has a hashable ['organization_id'] in case the
    actor is present, the call returns [success = false] with the code of
    the first failed precondition as its only error, and the world is the
    one after the two opening prints. *)
Theorem first_failed_precondition_is_reported (input : dict) (actor : value)
    (w : World) (code : string) :
  first_failed_precondition w input actor code →
  (actor_present actor → organization_id_usable input) →
  ∃ msg, simulate_start_call env input actor w
         = (Returned (failure code msg), invoked input w).
Proof.
  intros Hfail Husable.
  destruct (run_outcome input actor w) as (o & w' & -> & Hs).
  assert (Hk : truthy actor = true → organization_id_usable input) by done.
  destruct Hfail as [Hna | Ha Hno | Ha Horg Hnm | Ha Horg Hm Hns];
    inversion Hs as
      [Ha' | Ha' Hk' | k msg Ha' Hk' Hh' | k Ha' Hk' Hh' Hnone
       | org Ha' Hfound Hnl | org Ha' Hfound Hl Hnr
       | org cp v msg w'' Ha' Hfound Hl Hcp | org cp mods w'' Ha' Hfound Hl Hcp];
    subst; unfold actor_present in *;
    try congruence;
    try (by eexists);
    try (destruct (Hk Ha') as (k0 & Hk0 & Hh0); congruence);
    try (exfalso; apply Hno; by exists org);
    try (exfalso; by eapply not_found_no_organization);
    try (exfalso; apply Hnm; by exists org);
    try (exfalso; by eapply not_linked_no_member);
    try (exfalso; apply Hns; by exists cp).
Qed.

(** X2.  For every input that names an organization the table does not have
    (any hashable value under ['organization_id'] that is not a key of
    [organizations]) and every non-empty actor, the call returns
    [success = false] with the single error [CALL_START_ORG_NOT_FOUND] and
    only the two opening lines are printed. *)
Theorem unknown_organization_refused (input : dict) (actor : value) (w : World)
    (k : value) :
  truthy actor = true →
  dict_lookup input "organization_id" = Some k →
  hashable k = true →
  (∀ s, k = VStr s → organizations w !! s = None) →
  simulate_start_call env input actor w
  = (Returned (failure "CALL_START_ORG_NOT_FOUND" "Organization not found"),
     invoked input w).
Proof.
  intros Ha Hk Hh Hnone.
  destruct (run_outcome input actor w) as (o & w' & -> & Hs).
  inversion Hs as
    [ | | | | org ? Hfound | org ? Hfound | org ? ? ? w'' ? Hfound
     | org ? ? w'' ? Hfound]; subst; try congruence;
    exfalso; eapply not_found_no_organization; eauto; by exists org.
Qed.

(** X3.  When the ['modulations'] entry is a dictionary or absent, the call
    returns [success = true] exactly when the four preconditions hold. *)
Theorem success_iff_preconditions (input : dict) (actor : value) (w : World)
    (mods : dict) :
  modulations_of input mods →
  (∃ r w', simulate_start_call env input actor w = (Returned r, w')
           ∧ success r = true)
  ↔ preconditions_pass w input actor.
Proof.
  intros Hmods. split.
  - intros (r & w' & Hrun%run_returned & Hok).
    inversion Hrun; subst; try discriminate.
    apply passing_facts with (org := org); try done. by exists cp.
  - intros Hpass.
    destruct (run_of_passing env input actor w mods Hpass Hmods)
      as (org & cp & w' & _ & _ & Hrun & _).
    by eexists _, w'.
Qed.

(** X4.  No row without the preconditions: whatever the outcome, returned or
    raised, if the call changed [calls], [ai_runs] or [audit_logs] then the
    actor was present, the organization existed, the actor was a member of
    it and the control system was registered. *)
Theorem rows_require_preconditions (input : dict) (actor : value) (w : World) :
  let w' := (simulate_start_call env input actor w).2 in
  calls w' ≠ calls w ∨ ai_runs w' ≠ ai_runs w ∨ audit_logs w' ≠ audit_logs w →
  preconditions_pass w input actor.
Proof.
  pose proof (simulate_start_call_spec env input actor w) as Hs.
  destruct (simulate_start_call env input actor w) as [o w']. simpl in *.
  intros Hchanged.
  inversion Hs; subst;
    try (by destruct Hchanged as [? | [? | ?]]);
    apply passing_facts with (org := org); try done; by exists cp.
Qed.

End MoreOnTheSimulator.

(** Reduce the monadic code as far as it goes, rebuilding the world field
    by field. *)
Ltac step_call :=
  lazy beta iota zeta delta
    [simulate_start_call subscript mbind M_bind mret M_ret raise print
     organizations_get find_member system_map uuid4 now append_call
     mutate_call append_ai_run write_audit invoked
     set_stdout set_calls set_ai_runs set_audit_logs
     organizations org_members systems calls ai_runs audit_logs stdout
     uuid_draws clock_reads fst snd negb method_get
     set_call_sid set_status set_started_at call_id call_organization_id
     call_system_id call_status call_started_at call_ended_at call_created_by
     call_call_sid].

Section FramesAndRows.

Variable env : Env.

(** X5.  The tables [organizations], [org_members] and [systems] are never
    written: whatever the input, the actor and the outcome (a result or an
    exception), they are after the call what they were before. *)
Theorem lookup_tables_read_only (input : dict) (actor : value) (w : World) :
  let w' := (simulate_start_call env input actor w).2 in
  organizations w' = organizations w
  ∧ org_members w' = org_members w
  ∧ systems w' = systems w.
Proof.
  destruct w as [orgs mems syss cs ais logs out ud cr]. cbv zeta.
  step_call.
  destruct (truthy actor); step_call; [| done].
  destruct (dict_lookup input "organization_id") as [k|]; step_call; [| done].
  destruct k as [| | |s| |]; step_call; try done.
  destruct (orgs !! s) as [org|]; step_call; [| done].
  destruct (List.find _ mems); step_call; [| done].
  destruct (no_system (build_system_map syss !! "system-cpid")); step_call; [done |].
  destruct (default (VDict []) (dict_lookup input "modulations")) as [| | | | |mods];
    step_call; try done.
  destruct (truthy (default VNone (dict_lookup mods "transcribe")));
    [destruct (no_system (build_system_map syss !! "system-ai")) |];
    step_call;
    destruct (truthy (default VNone (dict_lookup mods "record")));
    step_call; done.
Qed.


(** X6.  The three written tables only grow at the end: whatever the outcome,
    the rows that were in [calls], [ai_runs] and [audit_logs] before the
    call are still there, unchanged and in the same places (the in-place
    updates of [call_row] touch the new row only). *)
Theorem written_tables_append_only (input : dict) (actor : value) (w : World) :
  let w' := (simulate_start_call env input actor w).2 in
  calls w `prefix_of` calls w'
  ∧ ai_runs w `prefix_of` ai_runs w'
  ∧ audit_logs w `prefix_of` audit_logs w'.
Proof.
  pose proof (simulate_start_call_spec env input actor w) as Hs.
  destruct (simulate_start_call env input actor w) as [o w']. simpl in *.
  inversion Hs as
    [ | | | | | | org cp v msg w'' ? ? ? ? ? ? Hc Ha Hl
     | org cp mods w'' ? ? ? ? ? Hst]; subst; try done.
  - rewrite Hc, Ha, Hl. split; [by eexists | done].
  - destruct Hst as (_ & _ & _ & -> & -> & ->).
    repeat split; by eexists.
Qed.

(** X7.  The Call row of a started call: the result's [call_id] is the id of
    the one row appended; the row carries the id stored in the organization
    found (not the key it was looked up with), the id that ['system-cpid']
    resolves to, the actor as [created_by], a start time and no end time. *)
Theorem started_call_row (input : dict) (actor : value) (w w' : World)
    (r : result) :
  simulate_start_call env input actor w = (Returned r, w') →
  success r = true →
  ∃ row org cp,
    calls w' = calls w ++ [row]
    ∧ result_call_id r = Some (call_id row)
    ∧ organization_found w input org
    ∧ call_organization_id row = org_id org
    ∧ system_resolves w "system-cpid" cp
    ∧ call_system_id row = cp
    ∧ call_created_by row = actor
    ∧ is_Some (call_started_at row)
    ∧ call_ended_at row = None.
Proof.
  intros Hrun%run_returned Hok.
  inversion Hrun as [ | | | | | | | org cp mods w'' ? Hfound ? Hcp ? Hst];
    subst; try discriminate.
  destruct Hst as (_ & _ & _ & Hcalls & _).
  exists (started_call env w org cp actor), org, cp.
  split; [exact Hcalls |]. split; [done |]. split; [exact Hfound |].
  split; [done |]. split; [exact Hcp |]. split; [done |]. split; [done |].
  split; [by eexists | done].
Qed.

(** X8.  What a started call does about the transcript, case by case: not
    requested, nothing happens; requested with ['system-ai'] registered,
    one AiRun row is appended, queued, for the model ['assemblyai-v1'],
    with the registered id and the new call's id, not yet started, and no
    error is reported; requested without it, no row is appended and the
    one error is [AI_SYSTEM_MISSING]. *)
Theorem transcription_outcome (input : dict) (actor : value) (w w' : World)
    (r : result) (mods : dict) :
  simulate_start_call env input actor w = (Returned r, w') →
  success r = true →
  modulations_of input mods →
  (transcribe_requested mods = false →
     ai_runs w' = ai_runs w ∧ errors r = [])
  ∧ (transcribe_requested mods = true → system_registered w "system-ai" →
     errors r = []
     ∧ ∃ a id,
         ai_runs w' = ai_runs w ++ [a]
         ∧ system_resolves w "system-ai" id
         ∧ ai_system_id a = id
         ∧ result_call_id r = Some (ai_call_id a)
         ∧ ai_model a = "assemblyai-v1"
         ∧ ai_status a = "queued"
         ∧ ai_started_at a = None
         ∧ ai_completed_at a = None
         ∧ ai_output a = None)
  ∧ (transcribe_requested mods = true → ¬ system_registered w "system-ai" →
     ai_runs w' = ai_runs w
     ∧ errors r = [("AI_SYSTEM_MISSING", "AI system not registered")]).
Proof.
  intros Hrun%run_returned Hok Hmods.
  inversion Hrun as [ | | | | | | | org cp mods' w'' ? ? ? ? Hmods' Hst];
    subst; try discriminate.
  unfold modulations_of in Hmods. rewrite Hmods in Hmods'.
  injection Hmods' as <-.
  destruct Hst as (_ & _ & _ & _ & Hruns & _).
  unfold queued_ai_runs, ai_run_created in Hruns.
  unfold transcribe_requested, soft_errors, ai_system_missing. simpl.
  destruct (truthy (default VNone (dict_lookup mods "transcribe")));
    destruct (no_system (build_system_map (systems w) !! "system-ai")) eqn:Hai;
    simpl in *; rewrite ?app_nil_r in Hruns;
    (split; [| split]); try (intros; discriminate); try (by intros).
  - intros _ Hreg%no_system_resolves. congruence.
  - intros _ _. split; [done |].
    apply no_system_resolves in Hai as (id & Hid & Hne).
    eexists _, id. split; [exact Hruns |].
    rewrite Hid. by repeat split.
  - intros _ Hnot. exfalso. by apply Hnot, no_system_resolves.
Qed.

End FramesAndRows.

Section AuditAndRepeats.

Variable env : Env.

Lemma preconditions_pass_frame (w w' : World) (input : dict) (actor : value) :
  organizations w' = organizations w → org_members w' = org_members w →
  systems w' = systems w →
  preconditions_pass w input actor → preconditions_pass w' input actor.
Proof.
  unfold preconditions_pass, organization_exists, member_exists,
    organization_found, member_linked, system_registered, system_resolves.
  by intros -> -> ->.
Qed.

Lemma usable_of_found (w : World) (input : dict) (org : Organization) :
  organization_found w input org → organization_id_usable input.
Proof. intros (s & Hk & _). by exists (VStr s). Qed.

(** X9.  The ['create'] entry of a started call: the audit log grows by the
    intent record, if a recording was requested, and then by one entry whose
    [after] snapshot is the Call row as it stands in [calls], with the
    modulations of the input as its [config]; the entry names the actor,
    the organization and the system of that row. *)
Theorem create_entry_content (input : dict) (actor : value) (w w' : World)
    (r : result) (mods : dict) :
  simulate_start_call env input actor w = (Returned r, w') →
  success r = true →
  modulations_of input mods →
  ∃ row intents create,
    calls w' = calls w ++ [row]
    ∧ audit_logs w' = audit_logs w ++ intents ++ [create]
    ∧ length intents = (if record_requested mods then 1 else 0)
    ∧ audit_after create = CallSnapshot row (VDict mods)
    ∧ audit_before create = None
    ∧ audit_user_id create = actor
    ∧ audit_organization_id create = call_organization_id row
    ∧ audit_system_id create = call_system_id row
    ∧ audit_resource_id create = call_id row.
Proof.
  intros Hrun%run_returned Hok Hmods.
  inversion Hrun as [ | | | | | | | org cp mods' w'' ? ? ? ? Hmods' Hst];
    subst; try discriminate.
  unfold modulations_of in Hmods. rewrite Hmods in Hmods'.
  injection Hmods' as <-.
  destruct Hst as (_ & _ & _ & Hcalls & _ & Hlogs).
  exists (started_call env w org cp actor), (intent_entries env w org cp actor mods),
    (create_entry env w org cp actor mods).
  split; [exact Hcalls |]. split; [exact Hlogs |].
  split; [| by repeat split].
  unfold intent_entries. by destruct (record_requested mods).
Qed.

(** X10.  The intent record: when a recording is requested, the entry written
    before the ['create'] entry has [before] null and, as [after], the
    [tool_id] of the organization found with a timestamp; it names the
    actor, that organization, the control system and the new Call. *)
Theorem intent_entry_content (input : dict) (actor : value) (w w' : World)
    (r : result) (mods : dict) :
  simulate_start_call env input actor w = (Returned r, w') →
  success r = true →
  modulations_of input mods →
  record_requested mods = true →
  ∃ org row intent create requested_at,
    organization_found w input org
    ∧ calls w' = calls w ++ [row]
    ∧ audit_logs w' = audit_logs w ++ [intent; create]
    ∧ audit_after intent = IntentSnapshot (org_tool_id org) requested_at
    ∧ audit_before intent = None
    ∧ audit_user_id intent = actor
    ∧ audit_organization_id intent = org_id org
    ∧ audit_system_id intent = call_system_id row
    ∧ audit_resource_id intent = call_id row.
Proof.
  intros Hrun%run_returned Hok Hmods Hrec.
  inversion Hrun as [ | | | | | | | org cp mods' w'' ? Hfound ? ? Hmods' Hst];
    subst; try discriminate.
  unfold modulations_of in Hmods. rewrite Hmods in Hmods'.
  injection Hmods' as <-.
  destruct Hst as (_ & _ & _ & Hcalls & _ & Hlogs).
  unfold intent_entries in Hlogs. rewrite Hrec in Hlogs.
  eexists org, _, _, _, _. split; [exact Hfound |]. split; [exact Hcalls |].
  split; [exact Hlogs |]. by repeat split.
Qed.

(** X11.  Nothing makes a call idempotent: a call that started can be made
    again on the tables it left, with the same input and actor; it starts a
    second call, so that [calls] ends with two new rows and the audit log
    has at least two more entries. *)
Theorem started_call_repeats (input : dict) (actor : value) (w w1 : World)
    (r : result) :
  simulate_start_call env input actor w = (Returned r, w1) →
  success r = true →
  ∃ r2 w2 row1 row2,
    simulate_start_call env input actor w1 = (Returned r2, w2)
    ∧ success r2 = true
    ∧ calls w2 = calls w ++ [row1; row2]
    ∧ length (audit_logs w) + 2 ≤ length (audit_logs w2).
Proof.
  intros Hrun%run_returned Hok.
  inversion Hrun as [ | | | | | | | org cp mods w'' Ha Hfound Hl Hcp Hmods Hst];
    subst; try discriminate.
  destruct Hst as (Horgs & Hmems & Hsyss & Hcalls & _ & Hlogs).
  assert (Hpass : preconditions_pass w1 input actor).
  { apply (preconditions_pass_frame w w1); try done.
    repeat split; [done | by exists org | by exists org | by exists cp]. }
  destruct (run_of_passing env input actor w1 mods Hpass Hmods)
    as (org2 & cp2 & w2 & _ & _ & Hrun2 & Hst2).
  destruct Hst2 as (_ & _ & _ & Hcalls2 & _ & Hlogs2).
  eexists _, w2, _, _. split; [exact Hrun2 |]. split; [done |]. split.
  - rewrite Hcalls2, Hcalls, <- app_assoc. reflexivity.
  - rewrite Hlogs2, Hlogs, !length_app. simpl. lia.
Qed.

(** X12.  A ['modulations'] entry that is not a dictionary is found out too
    late: when the four preconditions hold, the call raises
    [AttributeError] after the Call row has been appended and moved to
    ['in-progress']; no AiRun row and no audit entry are written. *)
Theorem unusable_modulations_leave_call_row (input : dict) (actor : value)
    (w : World) :
  preconditions_pass w input actor →
  modulations_unusable input →
  ∃ msg w' row,
    simulate_start_call env input actor w = (Raised (AttributeError msg), w')
    ∧ calls w' = calls w ++ [row]
    ∧ call_status row = "in-progress"
    ∧ call_created_by row = actor
    ∧ ai_runs w' = ai_runs w
    ∧ audit_logs w' = audit_logs w.
Proof.
  intros (Ha & Horg & Hmem & Hsys) (v & Hv & Hnd).
  destruct (run_outcome env input actor w) as (o & w' & -> & Hs).
  inversion Hs as
    [Ha' | Ha' Hk' | k msg Ha' Hk' Hh' | k Ha' Hk' Hh' Hnone
     | org Ha' Hfound Hnl | org Ha' Hfound Hl Hnr
     | org cp v' msg w'' Ha' Hfound Hl Hcp Hv' Hnd' Hc Hai Hlog
     | org cp mods w'' Ha' Hfound Hl Hcp Hmods];
    subst; unfold actor_present in *; try congruence.
  - destruct Horg as (org & s & Hk & _). congruence.
  - destruct Horg as (org & s & Hk & _). rewrite Hk in Hk'.
    injection Hk' as <-. discriminate.
  - exfalso. by eapply not_found_no_organization.
  - exfalso. by eapply not_linked_no_member.
  - eexists msg, w', _. split; [reflexivity |]. split; [exact Hc |]. done.
  - rewrite Hv in Hmods. simpl in Hmods. by destruct (Hnd mods).
Qed.

(** X13.  When the call raises: exactly when the actor is present and either
    the input has no hashable ['organization_id'], or the four preconditions
    hold and the ['modulations'] entry is not a dictionary.  An absent actor
    is refused before the input is read, whatever it holds. *)
Theorem raises_iff (input : dict) (actor : value) (w : World) :
  (∃ e, (simulate_start_call env input actor w).1 = Raised e)
  ↔ actor_present actor
    ∧ (¬ organization_id_usable input
       ∨ preconditions_pass w input actor ∧ modulations_unusable input).
Proof.
  destruct (run_outcome env input actor w) as (o & w' & Hrun & Hs).
  rewrite Hrun. simpl. split.
  - intros [e ->].
    inversion Hs as
      [ | Ha Hk | k msg Ha Hk Hh | | |
       | org cp v msg w'' Ha Hfound Hl Hcp Hv Hnd | ]; subst.
    + split; [done |]. left. intros (k & Hk' & _). congruence.
    + split; [done |]. left. intros (k' & Hk' & Hh'). congruence.
    + split; [done |]. right. split; [| by exists v].
      apply passing_facts with (org := org); try done. by exists cp.
  - intros [Ha [Hnu | [Hpass (v & Hv & Hnd)]]].
    + inversion Hs as
        [Ha' | | | k Ha' Hk' Hh' Hnone
         | org Ha' Hfound Hnl | org Ha' Hfound Hl Hnr
         | | org cp mods w'' Ha' Hfound Hl Hcp Hmods];
        subst; unfold actor_present in *; try congruence; try (by eexists);
        exfalso; apply Hnu; first [by exists k | by eapply usable_of_found].
    + destruct Hpass as (_ & Horg & Hmem & Hsys).
      inversion Hs as
        [Ha' | Ha' Hk' | k msg Ha' Hk' Hh' | k Ha' Hk' Hh' Hnone
         | org Ha' Hfound Hnl | org Ha' Hfound Hl Hnr
         | | org cp mods w'' Ha' Hfound Hl Hcp Hmods];
        subst; unfold actor_present in *; try congruence; try (by eexists).
      * exfalso. by eapply not_found_no_organization.
      * exfalso. by eapply not_linked_no_member.
      * rewrite Hv in Hmods. simpl in Hmods. by destruct (Hnd mods).
Qed.

End AuditAndRepeats.

(** * Further properties of the permission-matrix builder *)

Module PermissionMatrixMore.
Import PermissionMatrix.

Set Warnings "-clear-no-such-hyp".

Lemma dict_has_keys {V} (k : string) (d : list (string * V)) :
  dict_has k d = true ↔ k ∈ d.*1.
Proof.
  induction d as [|[k' v'] d IH]; simpl.
  - split; [discriminate | by intros ?%not_elem_of_nil].
  - rewrite orb_true_iff, IH, elem_of_cons, String.eqb_eq.
    split; (intros [? | ?]; [by left | by right]).
Qed.

Lemma dict_set_keys {V} (k : string) (v : V) (d : list (string * V)) :
  (dict_set k v d).*1 = if dict_has k d then d.*1 else d.*1 ++ [k].
Proof.
  induction d as [|[k' v'] d IH]; [done |].
  cbn [dict_set dict_has]. destruct (String.eqb k' k) eqn:Hk.
  - apply String.eqb_eq in Hk. by subst.
  - rewrite !fmap_cons, IH. cbn [orb fst]. by destruct (dict_has k d).
Qed.

Lemma dict_set_here {V} (k : string) (v : V) (d : list (string * V)) :
  (k, v) ∈ dict_set k v d.
Proof.
  induction d as [|[k' v'] d IH]; simpl; [apply list_elem_of_here |].
  destruct (String.eqb k' k); [apply list_elem_of_here |].
  by apply list_elem_of_further.
Qed.

Lemma dict_set_other {V} (k k' : string) (v v' : V) (d : list (string * V)) :
  k ≠ k' → (k', v') ∈ d → (k', v') ∈ dict_set k v d.
Proof.
  intros Hne. induction d as [|[k0 v0] d IH]; simpl.
  - by intros ?%not_elem_of_nil.
  - intros [[= <- <-] | Hin]%elem_of_cons.
    + destruct (String.eqb k' k) eqn:Hk.
      * apply String.eqb_eq in Hk. congruence.
      * apply list_elem_of_here.
    + destruct (String.eqb k0 k); apply list_elem_of_further; auto.
Qed.

Lemma dict_set_NoDup {V} (k : string) (v : V) (d : list (string * V)) :
  NoDup d.*1 → NoDup (dict_set k v d).*1.
Proof.
  intros Hd. rewrite dict_set_keys.
  destruct (dict_has k d) eqn:Hk; [done |].
  apply NoDup_app. split; [done |]. split; [| apply NoDup_singleton].
  intros x Hx ->%list_elem_of_singleton.
  apply dict_has_keys in Hx. congruence.
Qed.

Lemma table_entry_keys (schema_cols : gset string) (perms : value) (e : entry) :
  table_entry schema_cols perms = Returned e →
  e.*1 = entry_keys ∧ ("allowed_modules", allowed_modules) ∈ e.
Proof.
  unfold table_entry. intros Hrun.
  destruct (filtered_op _ perms "GET"); simpl in Hrun; [| discriminate].
  destruct (filtered_op _ perms "POST"); simpl in Hrun; [| discriminate].
  destruct (filtered_op _ perms "PUT"); simpl in Hrun; [| discriminate].
  destruct (filtered_op _ perms "DELETE"); simpl in Hrun; [| discriminate].
  injection Hrun as <-. split; [done |].
  do 4 apply list_elem_of_further. apply list_elem_of_here.
Qed.

(** The keys of [updated] after the first loop. *)
Lemma build_updated_keys (tables : gmap string (list string)) (tool : dict)
    (updated updated' : list (string * entry)) :
  build_updated tables tool updated = Returned updated' →
  ∀ k, k ∈ updated'.*1
       ↔ k ∈ updated.*1 ∨ (k ∈ tool.*1 ∧ is_Some (tables !! k)).
Proof.
  revert updated. induction tool as [|[tbl perms] tool IH]; intros updated Hrun k.
  - injection Hrun as <-. split; [by left | intros [? | [?%not_elem_of_nil ?]]; done].
  - simpl in Hrun. destruct (tables !! tbl) as [cols|] eqn:Htbl.
    + destruct (table_entry (list_to_set cols) perms) as [e|];
        simpl in Hrun; [| discriminate].
      rewrite (IH _ Hrun k), dict_set_keys. simpl. rewrite elem_of_cons.
      destruct (dict_has tbl updated) eqn:Hhas.
      * apply dict_has_keys in Hhas. split; [naive_solver |].
        intros [? | [[-> | ?] ?]]; naive_solver.
      * rewrite elem_of_app, list_elem_of_singleton. split.
        -- intros [[? | ->] | [? ?]]; [by left | right | right]; naive_solver.
        -- intros [? | [[-> | ?] ?]]; naive_solver.
    + rewrite (IH _ Hrun k). simpl. rewrite elem_of_cons. split; [naive_solver |].
      intros [? | [[-> | ?] Hsome]]; [by left | | naive_solver].
      rewrite Htbl in Hsome. by destruct Hsome.
Qed.

Lemma shaped_set (tables : gmap string (list string)) (tbl : string) (e : entry)
    (updated : list (string * entry)) :
  is_Some (tables !! tbl) → e.*1 = entry_keys →
  ("allowed_modules", allowed_modules) ∈ e →
  shaped tables updated → shaped tables (dict_set tbl e updated).
Proof.
  intros Htbl Hkeys Hmod [Hnd Hall]. split; [by apply dict_set_NoDup |].
  intros tbl' e' [[= -> ->] | Hin]%PermissionMatrixFacts.dict_set_elem; [done | by apply Hall].
Qed.

Lemma build_updated_shaped (tables : gmap string (list string)) (tool : dict)
    (updated updated' : list (string * entry)) :
  shaped tables updated →
  build_updated tables tool updated = Returned updated' →
  shaped tables updated'.
Proof.
  revert updated. induction tool as [|[tbl perms] tool IH]; intros updated Hok Hrun.
  - by injection Hrun as <-.
  - simpl in Hrun. destruct (tables !! tbl) as [cols|] eqn:Htbl; [| by eauto].
    destruct (table_entry (list_to_set cols) perms) as [e|] eqn:He;
      simpl in Hrun; [| discriminate].
    destruct (table_entry_keys _ _ _ He) as [Hkeys Hmod].
    apply (IH (dict_set tbl e updated)); [| done].
    apply shaped_set; rewrite ?Htbl; done.
Qed.

Lemma ensure_required_shaped (tables : gmap string (list string))
    (required : string) (updated : list (string * entry)) :
  shaped tables updated → shaped tables (ensure_required tables required updated).
Proof.
  intros Hok. unfold ensure_required.
  destruct (tables !! required) as [cols|] eqn:Htbl; [| done].
  destruct (dict_has required updated); [done |].
  apply shaped_set; rewrite ?Htbl; try done.
  do 4 apply list_elem_of_further. apply list_elem_of_here.
Qed.

Lemma ensure_required_keys (tables : gmap string (list string))
    (required : string) (updated : list (string * entry)) (k : string) :
  k ∈ (ensure_required tables required updated).*1
  ↔ k ∈ updated.*1 ∨ (k = required ∧ is_Some (tables !! required)).
Proof.
  unfold ensure_required.
  destruct (tables !! required) as [cols|] eqn:Htbl.
  - destruct (dict_has required updated) eqn:Hhas.
    + apply dict_has_keys in Hhas. naive_solver.
    + rewrite dict_set_keys, Hhas, elem_of_app, list_elem_of_singleton.
      naive_solver.
  - split; [by left | intros [? | [_ [? [=]]]]; done].
Qed.

Section EmittedMore.

Variable parse_tables : string → gmap string (list string).

Lemma emitted (tool : value) (schema_sql : string) (out : output) :
  build_permission_matrix parse_tables tool schema_sql = Returned out →
  ∃ d updated,
    tool = VDict d
    ∧ build_updated (parse_tables schema_sql) d [] = Returned updated
    ∧ matrix out
      = ensure_required (parse_tables schema_sql) "ai_runs"
          (ensure_required (parse_tables schema_sql) "calls" updated).
Proof.
  unfold build_permission_matrix. intros Hrun.
  destruct tool as [| | | | |d]; try discriminate. simpl in Hrun.
  destruct (build_updated _ d []) as [updated|] eqn:Hupd; simpl in Hrun;
    [| discriminate].
  injection Hrun as <-. by exists d, updated.
Qed.

Lemma emitted_shaped (tool : value) (schema_sql : string) (out : output) :
  build_permission_matrix parse_tables tool schema_sql = Returned out →
  shaped (parse_tables schema_sql) (matrix out).
Proof.
  intros (d & updated & -> & Hupd & ->)%emitted.
  apply ensure_required_shaped, ensure_required_shaped.
  apply (build_updated_shaped _ d [] updated); [| done].
  split; [apply NoDup_nil_2 |]. by intros ? ? ?%not_elem_of_nil.
Qed.

(** X14.  The matrix is a well-formed dictionary of well-formed entries: no
    table appears twice, every table of the matrix is a table of the parsed
    schema, and every entry has exactly the keys [GET], [POST], [PUT],
    [DELETE] and [allowed_modules], in that order, with the fixed modules
    table under the last. *)
Theorem matrix_shape (tool : value) (schema_sql : string) (out : output) :
  build_permission_matrix parse_tables tool schema_sql = Returned out →
  NoDup (matrix out).*1
  ∧ ∀ tbl e, (tbl, e) ∈ matrix out →
      is_Some (parse_tables schema_sql !! tbl)
      ∧ e.*1 = ["GET"; "POST"; "PUT"; "DELETE"; "allowed_modules"]
      ∧ ("allowed_modules", allowed_modules) ∈ e.
Proof. apply emitted_shaped. Qed.

(** X15.  Which tables the matrix has: those of the permission table that
    the parsed schema has as well, and [calls] and [ai_runs] whenever the
    schema has them, whether or not the permission table names them. *)
Theorem matrix_tables (d : dict) (schema_sql : string) (out : output)
    (tbl : string) :
  build_permission_matrix parse_tables (VDict d) schema_sql = Returned out →
  tbl ∈ (matrix out).*1
  ↔ is_Some (parse_tables schema_sql !! tbl)
    ∧ (tbl ∈ d.*1 ∨ tbl = "calls" ∨ tbl = "ai_runs").
Proof.
  intros (d' & updated & [= <-] & Hupd & ->)%emitted.
  rewrite !ensure_required_keys, (build_updated_keys _ _ _ _ Hupd tbl).
  split.
  - intros [[[?%not_elem_of_nil | [? ?]] | [-> ?]] | [-> ?]]; naive_solver.
  - intros [Hsome [? | [-> | ->]]]; naive_solver.
Qed.


Lemma filter_present_strings (schema_cols : gset string) (l : list string) :
  filter_present schema_cols (VStr <$> l)
  = Returned (filter (λ c, c ∈ schema_cols) l).
Proof.
  induction l as [|c l IH]; [done |].
  rewrite fmap_cons. cbn [filter_present]. rewrite IH. simpl.
  destruct (decide (c ∈ schema_cols)) as [Hc | Hc].
  - by rewrite bool_decide_eq_true_2, filter_cons_True.
  - by rewrite bool_decide_eq_false_2, filter_cons_False.
Qed.

Lemma table_entry_columns (schema_cols : gset string) (p : dict) (e : entry)
    (op : string) (l : list string) :
  table_entry schema_cols (VDict p) = Returned e →
  op ∈ operations →
  default (VList []) (dict_lookup p op) = strings l →
  (op, Columns (filter (λ c, c ∈ schema_cols) l)) ∈ e.
Proof.
  unfold table_entry. intros Hrun Hop Hl.
  assert (Hfo : filtered_op schema_cols (VDict p) op
                = Returned (filter (λ c, c ∈ schema_cols) l)).
  { unfold filtered_op. simpl. rewrite Hl. simpl. apply filter_present_strings. }
  destruct (filtered_op _ (VDict p) "GET") as [get|] eqn:Hget;
    simpl in Hrun; [| discriminate].
  destruct (filtered_op _ (VDict p) "POST") as [post|] eqn:Hpost;
    simpl in Hrun; [| discriminate].
  destruct (filtered_op _ (VDict p) "PUT") as [put|] eqn:Hput;
    simpl in Hrun; [| discriminate].
  destruct (filtered_op _ (VDict p) "DELETE") as [del|] eqn:Hdel;
    simpl in Hrun; [| discriminate].
  injection Hrun as <-.
  unfold operations in Hop.
  repeat (apply elem_of_cons in Hop as [-> | Hop];
          [rewrite Hfo in *; simplify_eq;
           repeat first [apply list_elem_of_here | apply list_elem_of_further] |]).
  by apply not_elem_of_nil in Hop.
Qed.

(** The entry the first loop leaves for a table that the permission table
    names once. *)
Lemma build_updated_entry (tables : gmap string (list string)) (tool : dict)
    (updated updated' : list (string * entry)) (tbl : string) (perms : value)
    (cols : list string) :
  build_updated tables tool updated = Returned updated' →
  NoDup tool.*1 → (tbl, perms) ∈ tool → tables !! tbl = Some cols →
  ∃ e, table_entry (list_to_set cols) perms = Returned e ∧ (tbl, e) ∈ updated'.
Proof.
  revert updated.
  induction tool as [|[tbl0 perms0] tool IH]; intros updated Hrun Hnd Hin Htbl.
  - by apply not_elem_of_nil in Hin.
  - apply NoDup_cons in Hnd as [Hfresh Hnd]. simpl in Hrun.
    apply elem_of_cons in Hin as [[= <- <-] | Hin].
    + rewrite Htbl in Hrun.
      destruct (table_entry (list_to_set cols) perms) as [e|] eqn:He;
        simpl in Hrun; [| discriminate].
      exists e. split; [done |].
      clear IH He.
      assert (Hhere : (tbl, e) ∈ dict_set tbl e updated) by apply dict_set_here.
      revert Hrun Hhere. generalize (dict_set tbl e updated).
      induction tool as [|[tbl1 perms1] tool IH]; intros upd Hrun Hhere.
      * by injection Hrun as <-.
      * simpl in Hrun.
        apply NoDup_cons in Hnd as [_ Hnd].
        assert (Hne : tbl1 ≠ tbl).
        { intros ->. apply Hfresh. simpl. apply list_elem_of_here. }
        assert (Hfresh' : tbl ∉ tool.*1).
        { intros Hin. apply Hfresh. simpl. by apply list_elem_of_further. }
        destruct (tables !! tbl1) as [cols1|]; [| by eauto].
        destruct (table_entry (list_to_set cols1) perms1) as [e1|];
          simpl in Hrun; [| discriminate].
        apply (IH Hfresh' Hnd _ Hrun). by apply dict_set_other.
    + destruct (tables !! tbl0) as [cols0|]; [| by eauto].
      destruct (table_entry (list_to_set cols0) perms0) as [e0|];
        simpl in Hrun; [| discriminate].
      by eauto.
Qed.

Lemma ensure_required_keeps (tables : gmap string (list string))
    (required tbl : string) (e : entry) (updated : list (string * entry)) :
  (tbl, e) ∈ updated → (tbl, e) ∈ ensure_required tables required updated.
Proof.
  intros Hin. unfold ensure_required.
  destruct (tables !! required) as [cols|]; [| done].
  destruct (dict_has required updated) eqn:Hhas; [done |].
  apply dict_set_other; [| done].
  intros ->. apply (list_elem_of_fmap_2 fst) in Hin. simpl in Hin.
  apply dict_has_keys in Hin. congruence.
Qed.

Lemma NoDup_keys_functional {V} (d : list (string * V)) (k : string) (v1 v2 : V) :
  NoDup d.*1 → (k, v1) ∈ d → (k, v2) ∈ d → v1 = v2.
Proof.
  induction d as [|[k0 v0] d IH]; intros Hnd H1 H2.
  - by apply not_elem_of_nil in H1.
  - apply NoDup_cons in Hnd as [Hfresh Hnd].
    apply elem_of_cons in H1 as [[= -> ->] | H1];
      apply elem_of_cons in H2 as [[= ?] | H2]; subst; try done.
    + exfalso. apply Hfresh. by apply (list_elem_of_fmap_2 fst) in H2.
    + exfalso. apply Hfresh. by apply (list_elem_of_fmap_2 fst) in H1.
    + by apply IH.
Qed.

(** X16.  Filtering is exact: for a table that the permission table names
    (once, as in any JSON object) with a dictionary, and that the parsed
    schema has, the list under an operation in the matrix is the list of
    strings the permission table gives for it ([[]] when it gives none),
    without the strings that are not columns of the table, in the same order
    and with repetitions kept; and it is the only list under that table and
    operation. *)
Theorem listed_columns_are_the_filter (d p : dict) (schema_sql : string)
    (out : output) (tbl op : string) (cols l : list string) :
  build_permission_matrix parse_tables (VDict d) schema_sql = Returned out →
  NoDup d.*1 →
  (tbl, VDict p) ∈ d →
  parse_tables schema_sql !! tbl = Some cols →
  op ∈ operations →
  default (VList []) (dict_lookup p op) = strings l →
  listed out tbl op (filter (λ c, c ∈ cols) l)
  ∧ ∀ cols', listed out tbl op cols' → cols' = filter (λ c, c ∈ cols) l.
Proof.
  intros Hrun Hnd Hin Htbl Hop Hl.
  pose proof (emitted_shaped _ _ _ Hrun) as [Hkeys Hshape].
  destruct (emitted _ _ _ Hrun) as (d' & updated & [= <-] & Hupd & Hm).
  destruct (build_updated_entry _ _ _ _ _ _ _ Hupd Hnd Hin Htbl) as (e & He & Hine).
  pose proof (table_entry_columns _ _ _ _ _ He Hop Hl) as Hcols.
  rewrite (list_filter_iff _ (λ c, c ∈ cols)) in Hcols
    by (intros c; apply elem_of_list_to_set).
  assert (Hmat : (tbl, e) ∈ matrix out).
  { rewrite Hm. by do 2 apply ensure_required_keeps. }
  split; [by exists e |].
  intros cols' (e' & He' & Hcols').
  rewrite <- (NoDup_keys_functional _ _ _ _ Hkeys Hmat He') in Hcols'.
  destruct (Hshape tbl e Hmat) as (_ & Hek & _).
  assert (Hnde : NoDup e.*1).
  { rewrite Hek. unfold entry_keys, operations. simpl.
    repeat (apply NoDup_cons; split;
            [intros Hx; repeat (apply elem_of_cons in Hx as [[=] | Hx]);
             by apply not_elem_of_nil in Hx |]).
    apply NoDup_nil_2. }
  pose proof (NoDup_keys_functional _ _ _ _ Hnde Hcols Hcols') as [= ->]. done.
Qed.


(** X17.  The default of a required table: when the parsed schema has
    [calls] (or [ai_runs]) and the permission table does not name it, the
    matrix gives it every column of the schema under [GET], in the schema's
    order, and nothing under [POST], [PUT] and [DELETE]. *)
Theorem required_table_default (d : dict) (schema_sql : string) (out : output)
    (required : string) (cols : list string) :
  build_permission_matrix parse_tables (VDict d) schema_sql = Returned out →
  required = "calls" ∨ required = "ai_runs" →
  parse_tables schema_sql !! required = Some cols →
  required ∉ d.*1 →
  (required, default_entry cols) ∈ matrix out.
Proof.
  intros (d' & updated & [= <-] & Hupd & ->)%emitted Hreq Htbl Hfresh.
  assert (Hno : required ∉ updated.*1).
  { intros Hin%(build_updated_keys _ _ _ _ Hupd).
    destruct Hin as [?%not_elem_of_nil | [? _]]; done. }
  destruct Hreq as [-> | ->].
  - apply ensure_required_keeps. unfold ensure_required at 1. rewrite Htbl.
    destruct (dict_has "calls" updated) eqn:Hhas.
    + apply dict_has_keys in Hhas. done.
    + apply dict_set_here.
  - unfold ensure_required at 1. rewrite Htbl.
    destruct (dict_has "ai_runs" _) eqn:Hhas.
    + apply dict_has_keys, ensure_required_keys in Hhas.
      destruct Hhas as [? | [[=] _]]. done.
    + apply dict_set_here.
Qed.

Lemma filter_present_hashable (schema_cols : gset string) (l : list value) :
  Forall (λ c, hashable c = true) l →
  ∃ filtered, filter_present schema_cols l = Returned filtered.
Proof.
  induction 1 as [|c l Hc _ [filtered IH]]; [by eexists |].
  destruct c; try discriminate; simpl; rewrite IH; by eexists.
Qed.

Lemma table_entry_usable (schema_cols : gset string) (perms : value) :
  perms_usable perms → ∃ e, table_entry schema_cols perms = Returned e.
Proof.
  intros (p & -> & Hp).
  assert (Hop : ∀ op, op ∈ operations →
            ∃ filtered, filtered_op schema_cols (VDict p) op = Returned filtered).
  { intros op Hin. unfold filtered_op. simpl.
    destruct (dict_lookup p op) as [v|] eqn:Hv; simpl; [| by eexists].
    destruct (Hp op v Hin Hv) as (l & -> & Hl). simpl.
    by apply filter_present_hashable. }
  unfold table_entry.
  destruct (Hop "GET") as [get ->]; [set_solver |].
  destruct (Hop "POST") as [post ->]; [set_solver |].
  destruct (Hop "PUT") as [put ->]; [set_solver |].
  destruct (Hop "DELETE") as [del ->]; [set_solver |].
  by eexists.
Qed.

(** X18.  The script emits for every usable permission table: a dictionary
    in which each table that the parsed schema has is given a dictionary
    whose values under the four operations, where present, are lists of
    hashable values.  What it holds for tables the schema lacks does not
    matter. *)
Theorem usable_tool_emits (d : dict) (schema_sql : string) :
  (∀ tbl perms, (tbl, perms) ∈ d →
     is_Some (parse_tables schema_sql !! tbl) → perms_usable perms) →
  ∃ out, build_permission_matrix parse_tables (VDict d) schema_sql = Returned out.
Proof.
  intros Hd. unfold build_permission_matrix. simpl.
  assert (Hupd : ∀ updated, ∃ updated',
            build_updated (parse_tables schema_sql) d updated = Returned updated').
  { induction d as [|[tbl perms] d IH]; intros updated; [by eexists |].
    simpl. destruct (parse_tables schema_sql !! tbl) as [cols|] eqn:Htbl.
    - destruct (table_entry_usable (list_to_set cols) perms) as [e ->].
      { apply (Hd tbl); [apply list_elem_of_here | by rewrite Htbl]. }
      simpl. apply IH. intros tbl' perms' Hin. apply Hd.
      by apply list_elem_of_further.
    - apply IH. intros tbl' perms' Hin. apply Hd. by apply list_elem_of_further. }
  destruct (Hupd []) as [updated ->]. by eexists.
Qed.

Lemma build_updated_known (tables : gmap string (list string)) (tool : dict)
    (updated : list (string * entry)) :
  build_updated tables tool updated
  = build_updated tables (filter (λ kv, is_Some (tables !! kv.1)) tool) updated.
Proof.
  revert updated. induction tool as [|[tbl perms] tool IH]; intros updated; [done |].
  simpl. destruct (tables !! tbl) as [cols|] eqn:Htbl.
  - rewrite filter_cons_True by (simpl; by rewrite Htbl).
    simpl. rewrite Htbl.
    destruct (table_entry (list_to_set cols) perms); simpl; [apply IH | done].
  - rewrite filter_cons_False; [apply IH |].
    simpl. rewrite Htbl. by intros [? [=]].
Qed.

(** X19.  Tables that the parsed schema lacks are ignored, whatever the
    permission table holds for them: the script does the same, emitting the
    same output or raising the same exception, as on the permission table
    without them. *)
Theorem unknown_tables_ignored (d : dict) (schema_sql : string) :
  build_permission_matrix parse_tables (VDict d) schema_sql
  = build_permission_matrix parse_tables
      (VDict (filter (λ kv, is_Some (parse_tables schema_sql !! kv.1)) d))
      schema_sql.
Proof.
  unfold build_permission_matrix. simpl. by rewrite <- build_updated_known.
Qed.

Lemma string_le_total : Total string_le.
Proof. intros a b. apply String.leb_total. Qed.

(** X20.  The [tables_in_schema] list of the validation section holds each
    table of the parsed schema exactly once, in non-decreasing order of
    their names. *)
Theorem tables_in_schema_sorted (tool : value) (schema_sql : string)
    (out : output) :
  build_permission_matrix parse_tables tool schema_sql = Returned out →
  Sorted string_le (tables_in_schema out)
  ∧ NoDup (tables_in_schema out)
  ∧ ∀ tbl, tbl ∈ tables_in_schema out ↔ is_Some (parse_tables schema_sql !! tbl).
Proof.
  unfold build_permission_matrix. intros Hrun.
  destruct (items tool) as [its|]; simpl in Hrun; [| discriminate].
  destruct (build_updated _ its []) as [updated|]; simpl in Hrun; [| discriminate].
  injection Hrun as <-. simpl.
  split; [apply Sorted_merge_sort, string_le_total |].
  split.
  - rewrite merge_sort_Permutation. apply NoDup_fst_map_to_list.
  - intros tbl. rewrite merge_sort_Permutation, list_elem_of_fmap. split.
    + intros ([k v] & -> & Hin%elem_of_map_to_list). by eexists.
    + intros [v Hv]. exists (tbl, v). split; [done |].
      by apply elem_of_map_to_list.
Qed.

End EmittedMore.

End PermissionMatrixMore.

(** * The API contract validator *)

Module ApiContractFacts.
Import ApiContract.

Lemma flat_map_nil_iff {A B} (f : A → list B) (l : list A) :
  flat_map f l = [] ↔ ∀ x, x ∈ l → f x = [].
Proof.
  induction l as [|x l IH]; simpl.
  - split; [by intros _ ? ?%not_elem_of_nil | done].
  - rewrite app_nil, IH. split.
    + intros [Hx Hl] y [-> | Hy]%elem_of_cons; auto.
    + intros Hall. split; [apply Hall, list_elem_of_here |].
      intros y Hy. by apply Hall, list_elem_of_further.
Qed.

Lemma reference_errors_nil (tables : gmap string (list string)) (action : string)
    (ref : string * list string) :
  reference_errors tables action ref = []
  ↔ ∃ present, tables !! ref.1 = Some present ∧ ∀ c, c ∈ ref.2 → c ∈ present.
Proof.
  unfold reference_errors. destruct (tables !! ref.1) as [present|].
  - rewrite flat_map_nil_iff. split.
    + intros Hall. exists present. split; [done |]. intros c Hc.
      specialize (Hall c Hc). by case_bool_decide.
    + intros (present' & [= <-] & Hall) c Hc.
      by rewrite bool_decide_eq_true_2 by auto.
  - split; [discriminate | by intros (? & [=] & _)].
Qed.

Section Script.

Variable parse_tables : string → gmap string (list string).

(** X21.  The verdict of the contract validator: [valid] is true exactly
    when every table that an action of the contract reads or writes is a
    table of the parsed schema and every column the action uses is a column
    of that table. *)
Theorem contract_valid_iff (sql : string) :
  valid (validate_api_contract parse_tables sql) = true
  ↔ ∀ action tbl cols, referenced action tbl cols →
      ∃ present, parse_tables sql !! tbl = Some present
                 ∧ ∀ c, c ∈ cols → c ∈ present.
Proof.
  unfold validate_api_contract. cbn [valid].
  rewrite Nat.eqb_eq, length_zero_iff_nil.
  unfold contract_errors. rewrite flat_map_nil_iff. split.
  - intros Hall action tbl cols (ops & mode & Hin & Hmode & Href).
    specialize (Hall (action, ops) Hin). unfold action_errors in Hall.
    rewrite flat_map_nil_iff in Hall. specialize (Hall mode Hmode).
    rewrite flat_map_nil_iff in Hall. specialize (Hall (tbl, cols) Href).
    by apply reference_errors_nil in Hall.
  - intros Hall [action ops] Hin. unfold action_errors.
    apply flat_map_nil_iff. intros mode Hmode.
    apply flat_map_nil_iff. intros [tbl cols] Href.
    apply reference_errors_nil, (Hall action). by exists ops, mode.
Qed.

End Script.

End ApiContractFacts.

(** * The toggle of a modulation *)

Module ToggleFacts.
Import Toggle.

Lemma dict_lookup_set (d : dict) (k k' : string) (v : value) :
  dict_lookup (PermissionMatrix.dict_set k v d) k'
  = if String.eqb k k' then Some v else dict_lookup d k'.
Proof.
  induction d as [|[k0 v0] d IH]; simpl.
  - done.
  - destruct (String.eqb k0 k) eqn:Hk0; simpl.
    + apply String.eqb_eq in Hk0 as ->.
      by destruct (String.eqb k k').
    + rewrite IH. destruct (String.eqb k k') eqn:Hk'; [| done].
      apply String.eqb_eq in Hk' as <-. by rewrite Hk0.
Qed.

Lemma dict_set_same (d : dict) (k : string) (v : value) :
  dict_lookup d k = Some v → PermissionMatrix.dict_set k v d = d.
Proof.
  induction d as [|[k0 v0] d IH]; simpl; [discriminate |].
  destruct (String.eqb k0 k) eqn:Hk0.
  - apply String.eqb_eq in Hk0 as ->. by intros [= ->].
  - intros Hd. by rewrite IH.
Qed.

Lemma dict_set_set (d : dict) (k : string) (v v' : value) :
  PermissionMatrix.dict_set k v' (PermissionMatrix.dict_set k v d)
  = PermissionMatrix.dict_set k v' d.
Proof.
  induction d as [|[k0 v0] d IH]; simpl.
  - by rewrite String.eqb_refl.
  - destruct (String.eqb k0 k) eqn:Hk0; simpl.
    + by rewrite String.eqb_refl.
    + by rewrite Hk0, IH.
Qed.

Lemma dict_set_missing (d : dict) (k : string) (v : value) :
  dict_lookup d k = None → PermissionMatrix.dict_set k v d = d ++ [(k, v)].
Proof.
  induction d as [|[k0 v0] d IH]; simpl; [done |].
  destruct (String.eqb k0 k); [discriminate |].
  intros Hd. by rewrite IH.
Qed.

(** X22.  What [toggle] hands back: [prev] is the dictionary as it was; in
    the dictionary itself the key now holds the boolean opposite of the
    truth value it had ([True] when it was missing), and every other key
    holds what it held. *)
Theorem toggle_flips_one_key (mods : dict) (key : string) :
  (toggle mods key).1 = mods
  ∧ dict_lookup (toggle mods key).2 key
    = Some (VBool (negb (truthy (default (VBool false) (dict_lookup mods key)))))
  ∧ ∀ k, k ≠ key → dict_lookup (toggle mods key).2 k = dict_lookup mods k.
Proof.
  unfold toggle. cbn [fst snd]. split; [done |]. split.
  - by rewrite dict_lookup_set, String.eqb_refl.
  - intros k Hk. rewrite dict_lookup_set.
    destruct (String.eqb key k) eqn:E; [| done].
    apply String.eqb_eq in E. congruence.
Qed.

(** X23.  Toggling twice gives the dictionary back when the key held a
    boolean. *)
Theorem toggle_twice_restores (mods : dict) (key : string) (b : bool) :
  dict_lookup mods key = Some (VBool b) →
  (toggle (toggle mods key).2 key).2 = mods.
Proof.
  intros Hk. unfold toggle. cbn [fst snd].
  rewrite dict_lookup_set, String.eqb_refl, Hk. cbn [default from_option id truthy].
  rewrite dict_set_set, negb_involutive. by apply dict_set_same.
Qed.

(** X24.  Toggling twice does not give the dictionary back when the key was
    missing: the key stays, holding [False], at the end of the dictionary. *)
Theorem toggle_twice_keeps_new_key (mods : dict) (key : string) :
  dict_lookup mods key = None →
  (toggle (toggle mods key).2 key).2 = mods ++ [(key, VBool false)].
Proof.
  intros Hk. unfold toggle. cbn [fst snd].
  rewrite dict_lookup_set, String.eqb_refl, Hk. cbn [default from_option id truthy negb].
  rewrite dict_set_set. by apply dict_set_missing.
Qed.

End ToggleFacts.

(** * The manifest check *)

Module ManifestFacts.
Import Manifest.

Lemma artifact_good_ok (a : value) : artifact_good a = true ↔ artifact_ok a.
Proof.
  unfold artifact_ok. destruct a as [| | | | |d]; simpl;
    try (split; [discriminate | by intros (? & [=] & _)]).
  rewrite andb_true_iff. split.
  - intros [? ?]. by exists d.
  - by intros (d' & [= <-] & ? & ?).
Qed.

(** The artifact loop on dictionaries: it goes through, and the flag ends
    true exactly when it was true and every artifact is good. *)
Lemma check_artifacts_dicts (arts : list value) (i : nat) (c : checks) :
  Forall artifact_dict arts →
  ∃ c', check_artifacts i arts c = Returned c'
        ∧ ok c' = ok c && forallb artifact_good arts.
Proof.
  intros Hd. revert i c.
  induction Hd as [|a arts [d ->] _ IH]; intros i c.
  - exists c. by rewrite andb_true_r.
  - cbn [check_artifacts]. unfold check_artifact. cbn [get mbind PermissionMatrix.outcome_bind].
    match goal with
    | |- context [check_artifacts (S i) arts ?c1] =>
        destruct (IH (S i) c1) as (c' & -> & Hok)
    end.
    exists c'. split; [done |]. rewrite Hok. cbn [forallb artifact_good].
    by destruct (is_str (default VNone (dict_lookup d "type"))),
               (is_str (default VNone (dict_lookup d "id"))), (ok c).
Qed.

(** The artifact loop stops with an exception at an artifact that is not a
    dictionary. *)
Lemma check_artifacts_returns (arts : list value) (i : nat) (c c' : checks) :
  check_artifacts i arts c = Returned c' → Forall artifact_dict arts.
Proof.
  revert i c. induction arts as [|a arts IH]; intros i c Hrun; [constructor |].
  cbn [check_artifacts] in Hrun. unfold check_artifact in Hrun.
  destruct a as [| | | | |d]; try discriminate.
  cbn [get mbind PermissionMatrix.outcome_bind] in Hrun.
  constructor; [by exists d | by eapply IH].
Qed.

(** X25.  When the manifest script ends with status 0: exactly when the
    decoded manifest is a dictionary whose [manifest_id] and [created_at]
    are strings and whose [artifacts] is a list of dictionaries, each with a
    string [type] and a string [id].  An empty list of artifacts passes, and
    [manifest_hash] plays no part. *)
Theorem manifest_passes_iff (m : value) :
  (∃ printed, report m = Returned (printed, 0))
  ↔ ∃ d arts,
      m = VDict d
      ∧ is_str (default VNone (dict_lookup d "manifest_id")) = true
      ∧ is_str (default VNone (dict_lookup d "created_at")) = true
      ∧ default VNone (dict_lookup d "artifacts") = VList arts
      ∧ Forall artifact_ok arts.
Proof.
  split.
  - intros [printed Hrun]. unfold report, check_manifest in Hrun.
    destruct m as [| | | | |d]; try discriminate.
    cbn [get mbind PermissionMatrix.outcome_bind] in Hrun.
    destruct (default VNone (dict_lookup d "artifacts")) as [| | | |arts|] eqn:Hart;
      cbn [mbind PermissionMatrix.outcome_bind] in Hrun;
      try (destruct (is_str (default VNone (dict_lookup d "manifest_id"))),
                    (is_str (default VNone (dict_lookup d "created_at"))),
                    (is_str (default VNone (dict_lookup d "manifest_hash")));
           discriminate).
    destruct arts as [|a arts].
    + exists d, []. rewrite Hart.
      destruct (is_str (default VNone (dict_lookup d "manifest_id"))),
               (is_str (default VNone (dict_lookup d "created_at"))),
               (is_str (default VNone (dict_lookup d "manifest_hash")));
        try discriminate; by repeat split.
    + match type of Hrun with
      | context [check_artifacts 0 (a :: arts) ?c0] =>
          destruct (check_artifacts 0 (a :: arts) c0) as [c'|] eqn:Hloop;
            [| discriminate];
          pose proof (check_artifacts_returns _ _ _ _ Hloop) as Hd;
          destruct (check_artifacts_dicts (a :: arts) 0 c0 Hd) as (c'' & Hloop' & Hok);
          rewrite Hloop in Hloop'; injection Hloop' as <-
      end.
      cbn [mbind PermissionMatrix.outcome_bind] in Hrun.
      exists d, (a :: arts). rewrite Hart.
      assert (Hgood : forallb artifact_good (a :: arts) = true
                      → Forall artifact_ok (a :: arts)).
      { intros Hall. apply Forall_forall. intros x Hx.
        apply artifact_good_ok. rewrite forallb_forall in Hall.
        by apply Hall, list_elem_of_In. }
      destruct (is_str (default VNone (dict_lookup d "manifest_id"))),
               (is_str (default VNone (dict_lookup d "created_at"))),
               (is_str (default VNone (dict_lookup d "manifest_hash")));
        cbn [ok fail note] in Hok, Hrun; rewrite Hok in Hrun;
        cbn [andb] in Hrun;
        destruct (forallb artifact_good (a :: arts)); try discriminate;
        repeat split; auto.
  - intros (d & arts & -> & Hid & Hcreated & Hart & Hall).
    unfold report, check_manifest. cbn [get mbind PermissionMatrix.outcome_bind].
    rewrite Hid, Hcreated, Hart.
    assert (Hgood : forallb artifact_good arts = true).
    { apply forallb_forall. intros x Hx%list_elem_of_In.
      apply artifact_good_ok. rewrite Forall_forall in Hall. by apply Hall. }
    destruct arts as [|a arts].
    + cbn [mbind PermissionMatrix.outcome_bind].
      destruct (is_str (default VNone (dict_lookup d "manifest_hash")));
        cbn; by eexists.
    + assert (Hd : Forall artifact_dict (a :: arts)).
      { eapply Forall_impl; [exact Hall |]. intros x (dx & -> & _). by exists dx. }
      destruct (check_artifacts_dicts (a :: arts) 0 (mkChecks true []) Hd)
        as (c' & Hloop & Hok).
      rewrite Hloop. cbn [mbind PermissionMatrix.outcome_bind].
      rewrite Hgood in Hok. cbn [ok andb] in Hok.
      destruct (is_str (default VNone (dict_lookup d "manifest_hash")));
        cbn [ok note]; rewrite Hok; cbn; by eexists.
Qed.


Lemma report_of_dicts (d : dict) (arts : list value) :
  default VNone (dict_lookup d "artifacts") = VList arts →
  Forall artifact_dict arts →
  ∃ printed status, report (VDict d) = Returned (printed, status).
Proof.
  intros Hart Hd. unfold report, check_manifest. cbn [get mbind PermissionMatrix.outcome_bind].
  rewrite Hart.
  destruct arts as [|a arts].
  - cbn [mbind PermissionMatrix.outcome_bind].
    destruct (is_str (default VNone (dict_lookup d "manifest_id"))),
             (is_str (default VNone (dict_lookup d "created_at"))),
             (is_str (default VNone (dict_lookup d "manifest_hash")));
      cbn; by eexists _, _.
  - match goal with
    | |- context [check_artifacts 0 (a :: arts) ?c0] =>
        destruct (check_artifacts_dicts (a :: arts) 0 c0 Hd) as (c' & -> & _)
    end.
    cbn [mbind PermissionMatrix.outcome_bind].
    destruct (is_str (default VNone (dict_lookup d "manifest_hash")));
      cbn [ok note]; destruct (ok c'); cbn; by eexists _, _.
Qed.

Lemma report_not_list (d : dict) :
  (∀ arts, default VNone (dict_lookup d "artifacts") ≠ VList arts) →
  ∃ printed, report (VDict d) = Returned (printed, 1).
Proof.
  intros Hart. unfold report, check_manifest. cbn [get mbind PermissionMatrix.outcome_bind].
  destruct (default VNone (dict_lookup d "artifacts")) as [| | | |arts|];
    try (by destruct (Hart arts));
    cbn [mbind PermissionMatrix.outcome_bind];
    destruct (is_str (default VNone (dict_lookup d "manifest_id"))),
             (is_str (default VNone (dict_lookup d "created_at"))),
             (is_str (default VNone (dict_lookup d "manifest_hash")));
    cbn; by eexists.
Qed.

(** X26.  When the manifest script is stopped by an exception instead of
    reporting: exactly when the decoded manifest is not a dictionary, or its
    [artifacts] is a list with an element that is not a dictionary.  Any
    other defect is reported, with status 1. *)
Theorem manifest_raises_iff (m : value) :
  (∃ e, report m = Raised e)
  ↔ (∀ d, m ≠ VDict d)
    ∨ ∃ d arts, m = VDict d
                ∧ default VNone (dict_lookup d "artifacts") = VList arts
                ∧ ¬ Forall artifact_dict arts.
Proof.
  split.
  - intros [e Hrun]. destruct m as [| | | | |d]; try (by left).
    right. exists d.
    destruct (default VNone (dict_lookup d "artifacts")) as [| | | |arts|] eqn:Hart;
      try (destruct (report_not_list d) as [printed Hret];
           [intros arts; by rewrite Hart | congruence]).
    exists arts. split; [done |]. split; [done |]. intros Hd.
    destruct (report_of_dicts d arts Hart Hd) as (printed & status & Hret).
    congruence.
  - intros [Hnd | (d & arts & -> & Hart & Hbad)].
    + destruct m as [| | | | |d]; try (by eexists). by destruct (Hnd d).
    + unfold report, check_manifest. cbn [get mbind PermissionMatrix.outcome_bind].
      rewrite Hart. destruct arts as [|a arts]; [by destruct Hbad |].
      match goal with
      | |- context [check_artifacts 0 (a :: arts) ?c0] =>
          destruct (check_artifacts 0 (a :: arts) c0) as [c'|e] eqn:Hloop
      end.
      * destruct Hbad. by eapply check_artifacts_returns.
      * by exists e.
Qed.

End ManifestFacts.

(** * The further properties at sample inputs *)

Lemma first_failed_precondition_is_reported_witness :
  ∃ msg, simulate_start_call sample_env example_input VNone initial_world
         = (Returned (failure "AUTH_REQUIRED" msg), invoked example_input initial_world).
Proof.
  apply (first_failed_precondition_is_reported sample_env example_input VNone
           initial_world "AUTH_REQUIRED").
  - apply failed_actor. unfold actor_present. simpl. discriminate.
  - unfold actor_present. simpl. discriminate.
Defined.

Lemma unknown_organization_refused_witness :
  simulate_start_call sample_env [("organization_id", VInt 7)] (VStr "user-1")
    initial_world
  = (Returned (failure "CALL_START_ORG_NOT_FOUND" "Organization not found"),
     invoked [("organization_id", VInt 7)] initial_world).
Proof.
  apply (unknown_organization_refused sample_env [("organization_id", VInt 7)]
           (VStr "user-1") initial_world (VInt 7)).
  - reflexivity.
  - reflexivity.
  - reflexivity.
  - intros s Hs. discriminate Hs.
Defined.

Lemma success_iff_preconditions_witness :
  (∃ r w', simulate_start_call sample_env plain_input (VStr "user-1") initial_world
           = (Returned r, w') ∧ success r = true)
  ↔ preconditions_pass initial_world plain_input (VStr "user-1").
Proof.
  apply (success_iff_preconditions sample_env plain_input (VStr "user-1")
           initial_world []).
  reflexivity.
Defined.

Lemma rows_require_preconditions_witness :
  preconditions_pass initial_world example_input (VStr "user-1").
Proof.
  apply (rows_require_preconditions sample_env example_input (VStr "user-1")
           initial_world).
  left. vm_compute. discriminate.
Defined.

Lemma started_call_row_witness :
  let run := simulate_start_call sample_env plain_input (VStr "user-1")
               initial_world in
  ∃ row org cp,
    calls run.2 = calls initial_world ++ [row]
    ∧ Some "00000000-1111-2222-3333-444444444444" = Some (call_id row)
    ∧ organization_found initial_world plain_input org
    ∧ call_organization_id row = org_id org
    ∧ system_resolves initial_world "system-cpid" cp
    ∧ call_system_id row = cp
    ∧ call_created_by row = VStr "user-1"
    ∧ is_Some (call_started_at row)
    ∧ call_ended_at row = None.
Proof.
  apply (started_call_row sample_env plain_input (VStr "user-1") initial_world _
           (mkResult true (Some "00000000-1111-2222-3333-444444444444") [])).
  - vm_compute. reflexivity.
  - reflexivity.
Defined.

Lemma transcription_outcome_witness :
  let run := simulate_start_call sample_env transcribe_input (VStr "user-1")
               no_ai_world in
  let r := mkResult true (Some "00000000-1111-2222-3333-444444444444")
             [("AI_SYSTEM_MISSING", "AI system not registered")] in
  let mods := [("transcribe", VBool true)] in
  (transcribe_requested mods = false →
     ai_runs run.2 = ai_runs no_ai_world ∧ errors r = [])
  ∧ (transcribe_requested mods = true → system_registered no_ai_world "system-ai" →
     errors r = []
     ∧ ∃ a id,
         ai_runs run.2 = ai_runs no_ai_world ++ [a]
         ∧ system_resolves no_ai_world "system-ai" id
         ∧ ai_system_id a = id
         ∧ result_call_id r = Some (ai_call_id a)
         ∧ ai_model a = "assemblyai-v1"
         ∧ ai_status a = "queued"
         ∧ ai_started_at a = None
         ∧ ai_completed_at a = None
         ∧ ai_output a = None)
  ∧ (transcribe_requested mods = true → ¬ system_registered no_ai_world "system-ai" →
     ai_runs run.2 = ai_runs no_ai_world
     ∧ errors r = [("AI_SYSTEM_MISSING", "AI system not registered")]).
Proof.
  apply (transcription_outcome sample_env transcribe_input (VStr "user-1")
           no_ai_world).
  - vm_compute. reflexivity.
  - reflexivity.
  - reflexivity.
Defined.

Lemma create_entry_content_witness :
  let run := simulate_start_call sample_env example_input (VStr "user-1")
               initial_world in
  let mods := [("record", VBool true); ("transcribe", VBool true)] in
  ∃ row intents create,
    calls run.2 = calls initial_world ++ [row]
    ∧ audit_logs run.2 = audit_logs initial_world ++ intents ++ [create]
    ∧ length intents = (if record_requested mods then 1 else 0)
    ∧ audit_after create = CallSnapshot row (VDict mods)
    ∧ audit_before create = None
    ∧ audit_user_id create = VStr "user-1"
    ∧ audit_organization_id create = call_organization_id row
    ∧ audit_system_id create = call_system_id row
    ∧ audit_resource_id create = call_id row.
Proof.
  apply (create_entry_content sample_env example_input (VStr "user-1")
           initial_world _
           (mkResult true (Some "00000000-1111-2222-3333-444444444444") [])).
  - vm_compute. reflexivity.
  - reflexivity.
  - reflexivity.
Defined.

Lemma intent_entry_content_witness :
  let run := simulate_start_call sample_env record_input (VStr "user-1")
               initial_world in
  ∃ org row intent create requested_at,
    organization_found initial_world record_input org
    ∧ calls run.2 = calls initial_world ++ [row]
    ∧ audit_logs run.2 = audit_logs initial_world ++ [intent; create]
    ∧ audit_after intent = IntentSnapshot (org_tool_id org) requested_at
    ∧ audit_before intent = None
    ∧ audit_user_id intent = VStr "user-1"
    ∧ audit_organization_id intent = org_id org
    ∧ audit_system_id intent = call_system_id row
    ∧ audit_resource_id intent = call_id row.
Proof.
  apply (intent_entry_content sample_env record_input (VStr "user-1")
           initial_world _
           (mkResult true (Some "00000000-1111-2222-3333-444444444444") [])
           [("record", VBool true)]).
  - vm_compute. reflexivity.
  - reflexivity.
  - reflexivity.
  - reflexivity.
Defined.

Lemma started_call_repeats_witness :
  let run := simulate_start_call sample_env plain_input (VStr "user-1")
               initial_world in
  ∃ r2 w2 row1 row2,
    simulate_start_call sample_env plain_input (VStr "user-1") run.2
    = (Returned r2, w2)
    ∧ success r2 = true
    ∧ calls w2 = calls initial_world ++ [row1; row2]
    ∧ length (audit_logs initial_world) + 2 ≤ length (audit_logs w2).
Proof.
  apply (started_call_repeats sample_env plain_input (VStr "user-1")
           initial_world _
           (mkResult true (Some "00000000-1111-2222-3333-444444444444") [])).
  - vm_compute. reflexivity.
  - reflexivity.
Defined.

Lemma initial_world_passes_bad_modulations :
  preconditions_pass initial_world bad_modulations_input (VStr "user-1").
Proof.
  apply (setup_passes initial_world bad_modulations_input "org-1" "user-1").
  - exact initial_world_has_org.
  - exact initial_world_has_member.
  - apply initial_world_registered. by left.
  - discriminate.
  - reflexivity.
Qed.

Lemma unusable_modulations_leave_call_row_witness :
  ∃ msg w' row,
    simulate_start_call sample_env bad_modulations_input (VStr "user-1")
      initial_world
    = (Raised (AttributeError msg), w')
    ∧ calls w' = calls initial_world ++ [row]
    ∧ call_status row = "in-progress"
    ∧ call_created_by row = VStr "user-1"
    ∧ ai_runs w' = ai_runs initial_world
    ∧ audit_logs w' = audit_logs initial_world.
Proof.
  apply (unusable_modulations_leave_call_row sample_env bad_modulations_input
           (VStr "user-1") initial_world).
  - exact initial_world_passes_bad_modulations.
  - exists (VStr "record"). split; [reflexivity |]. intros d Hd. discriminate Hd.
Defined.

Module PermissionMatrixSamples.
Import PermissionMatrix.

Lemma sample_run :
  build_permission_matrix (λ _, sample_tables) sample_tool EmptyString
  = Returned sample_output.
Proof. vm_compute. reflexivity. Qed.

Lemma matrix_shape_witness :
  NoDup (matrix sample_output).*1
  ∧ ∀ tbl e, (tbl, e) ∈ matrix sample_output →
      is_Some (sample_tables !! tbl)
      ∧ e.*1 = ["GET"; "POST"; "PUT"; "DELETE"; "allowed_modules"]
      ∧ ("allowed_modules", allowed_modules) ∈ e.
Proof.
  apply (PermissionMatrixMore.matrix_shape (λ _, sample_tables) sample_tool
           EmptyString).
  vm_compute. reflexivity.
Defined.

Lemma matrix_tables_witness :
  "ghosts" ∈ (matrix sample_output).*1
  ↔ is_Some (sample_tables !! "ghosts")
    ∧ ("ghosts" ∈ ["calls"; "ghosts"] ∨ "ghosts" = "calls" ∨ "ghosts" = "ai_runs").
Proof.
  apply (PermissionMatrixMore.matrix_tables (λ _, sample_tables)
           [("calls", VDict [("GET", VList [VStr "id"; VStr "stale"; VInt 3]);
                             ("PUT", VList [VStr "status"])]);
            ("ghosts", VDict [("GET", VList [VStr "id"])])]
           EmptyString sample_output "ghosts").
  vm_compute. reflexivity.
Defined.

Lemma listed_columns_are_the_filter_witness :
  listed sample_output "calls" "PUT" (filter (λ c, c ∈ ["id"; "status"]) ["status"])
  ∧ ∀ cols', listed sample_output "calls" "PUT" cols'
             → cols' = filter (λ c, c ∈ ["id"; "status"]) ["status"].
Proof.
  apply (PermissionMatrixMore.listed_columns_are_the_filter (λ _, sample_tables)
           [("calls", VDict [("GET", VList [VStr "id"; VStr "stale"; VInt 3]);
                             ("PUT", VList [VStr "status"])]);
            ("ghosts", VDict [("GET", VList [VStr "id"])])]
           [("GET", VList [VStr "id"; VStr "stale"; VInt 3]);
            ("PUT", VList [VStr "status"])]
           EmptyString sample_output "calls" "PUT").
  - vm_compute. reflexivity.
  - apply (bool_decide_unpack _). vm_compute. exact I.
  - apply list_elem_of_here.
  - vm_compute. reflexivity.
  - apply (bool_decide_unpack _). vm_compute. exact I.
  - reflexivity.
Defined.

Lemma required_table_default_witness :
  ("ai_runs", default_entry ["id"; "call_id"]) ∈ matrix sample_output.
Proof.
  apply (PermissionMatrixMore.required_table_default (λ _, sample_tables)
           [("calls", VDict [("GET", VList [VStr "id"; VStr "stale"; VInt 3]);
                             ("PUT", VList [VStr "status"])]);
            ("ghosts", VDict [("GET", VList [VStr "id"])])]
           EmptyString sample_output "ai_runs").
  - vm_compute. reflexivity.
  - by right.
  - vm_compute. reflexivity.
  - apply (bool_decide_unpack _). vm_compute. exact I.
Defined.

Lemma ghost_crash_tool_usable (tbl : string) (perms : value) :
  (tbl, perms) ∈ [("calls", VDict [("GET", strings ["id"; "stale"; "status"])]);
                  ("ghosts", VInt 7)] →
  is_Some (sample_tables !! tbl) → perms_usable perms.
Proof.
  intros [[= -> ->] | Hin]%elem_of_cons Hsome.
  - eexists. split; [reflexivity |]. intros op v Hop Hv.
    unfold operations in Hop.
    apply elem_of_cons in Hop as [-> | Hop].
    + injection Hv as <-. eexists. split; [reflexivity |]. by repeat constructor.
    + repeat (apply elem_of_cons in Hop as [-> | Hop]; [discriminate Hv |]).
      by apply not_elem_of_nil in Hop.
  - apply list_elem_of_singleton in Hin as [= -> ->].
    vm_compute in Hsome. by destruct Hsome.
Qed.

Lemma usable_tool_emits_witness :
  ∃ out, build_permission_matrix (λ _, sample_tables) ghost_crash_tool EmptyString
         = Returned out.
Proof.
  apply (PermissionMatrixMore.usable_tool_emits (λ _, sample_tables)
           [("calls", VDict [("GET", strings ["id"; "stale"; "status"])]);
            ("ghosts", VInt 7)] EmptyString).
  exact ghost_crash_tool_usable.
Defined.

Lemma tables_in_schema_sorted_witness :
  Sorted string_le (tables_in_schema sample_output)
  ∧ NoDup (tables_in_schema sample_output)
  ∧ ∀ tbl, tbl ∈ tables_in_schema sample_output ↔ is_Some (sample_tables !! tbl).
Proof.
  apply (PermissionMatrixMore.tables_in_schema_sorted (λ _, sample_tables)
           sample_tool EmptyString).
  vm_compute. reflexivity.
Defined.

End PermissionMatrixSamples.

Module ToggleSamples.
Import Toggle.

Lemma toggle_twice_restores_witness :
  (toggle (toggle initial "record").2 "record").2 = initial.
Proof.
  apply (ToggleFacts.toggle_twice_restores initial "record" false). reflexivity.
Defined.

Lemma toggle_twice_keeps_new_key_witness :
  (toggle (toggle initial "mute").2 "mute").2 = initial ++ [("mute", VBool false)].
Proof.
  apply (ToggleFacts.toggle_twice_keeps_new_key initial "mute"). reflexivity.
Defined.

(** The assertions of the [__main__] block. *)
Example toggle_main :
  dict_lookup (toggle initial "record").1 "record" = Some (VBool false)
  ∧ dict_lookup (toggle initial "record").2 "record" = Some (VBool true).
Proof. split; reflexivity. Qed.

End ToggleSamples.
